(** * Final_Platformer_Game: the gameplay core, embedded and verified

    A shallow embedding of the gameplay state machine of the platformer:
    [config.py], [src/levels/level_data.py], [src/sprites/enemy.py],
    [src/sprites/hazards.py], [src/sprites/player.py] and
    [src/views/game_view.py].

    Conventions of the embedding.
    - Python [int] is [Z]; Python [float] is idealised as an exact rational
      [Q] (no rounding, no NaN).  Coordinates, velocities and timers are [Q];
      score, health and level indices are [Z].
    - The host framework (arcade) is not part of the repository.  Its
      platformer physics step, its jump-permission query and its overlap test
      are Section variables: every theorem below holds for any behaviour of
      these three collaborators.
    - An exception raised by the code ([IndexError] on [LEVELS[i]]) is [None].
    - Sound and music are best-effort calls wrapped in [try/except: pass];
      they do not touch the session state and are left out. *)

From Stdlib Require Import QArith ZArith List String Bool Lia Lqa Qround Qabs.
Import ListNotations.

Open Scope Z_scope.
Open Scope Q_scope.

(** ** Python arithmetic used by the sources *)

Module Py.

(** [a < b] on floats, as a boolean. *)
Definition ltb (a b : Q) : bool := negb (Qle_bool b a).

(** [a <= b] on floats, as a boolean. *)
Definition leb (a b : Q) : bool := Qle_bool a b.

(** [max(a, b)]: the first argument unless the second is strictly larger. *)
Definition max (a b : Q) : Q := if ltb a b then b else a.

(** [int(x)] on a float: truncation toward zero. *)
Definition int (x : Q) : Z := Z.quot (Qnum x) (Zpos (Qden x)).

(** [a % b] on floats: the result takes the sign of the divisor. *)
Definition fmod (a b : Q) : Q := a - b * inject_Z (Qfloor (a / b)).

(** [range(start, stop, step)] for a positive step. *)
Definition range (start stop step : Z) : list Z :=
  map (fun k => (start + step * Z.of_nat k)%Z)
      (seq 0 (Z.to_nat ((stop - start + step - 1) / step))).

(** [xs[i]] on a list: negative indices count from the end, anything out
    of range raises. *)
Definition index {A} (xs : list A) (i : Z) : option A :=
  let n := Z.of_nat (List.length xs) in
  if (0 <=? i)%Z then nth_error xs (Z.to_nat i)
  else if (- n <=? i)%Z then nth_error xs (Z.to_nat (n + i))
  else None.

End Py.

(** ** config.py *)

Definition GRAVITY : Q := 1.0.
Definition PLAYER_MOVE_SPEED : Q := 5.0.
Definition PLAYER_JUMP_SPEED : Q := 20.0.
Definition PLAYER_MAX_HEALTH : Z := 3.
Definition KILL_PLANE_Y : Q := -200.
Definition ANIMATION_RATE : Q := 0.12.

Definition CHARACTER_SCALING : Q := 1.0.
Definition TILE_SCALING : Q := 0.5.
Definition COIN_SCALING : Q := 0.5.
Definition ENEMY_SCALING : Q := 0.6.
Definition HAZARD_SCALING : Q := 0.5.

Open Scope string_scope.

Definition digit (i : nat) : string :=
  String (Ascii.ascii_of_nat (48 + i)) EmptyString.

Definition PLAYER_MALE_IDLE :=
  ":resources:images/animated_characters/male_adventurer/maleAdventurer_idle.png".
Definition PLAYER_MALE_JUMP :=
  ":resources:images/animated_characters/male_adventurer/maleAdventurer_jump.png".
Definition PLAYER_MALE_WALK : list string :=
  map (fun i =>
         ":resources:images/animated_characters/male_adventurer/maleAdventurer_walk"
           ++ digit i ++ ".png")
      (seq 0 8).
Definition PLAYER_FEMALE_IDLE :=
  ":resources:images/animated_characters/female_adventurer/femaleAdventurer_idle.png".
Definition PLAYER_FEMALE_JUMP :=
  ":resources:images/animated_characters/female_adventurer/femaleAdventurer_jump.png".
Definition PLAYER_FEMALE_WALK : list string :=
  map (fun i =>
         ":resources:images/animated_characters/female_adventurer/femaleAdventurer_walk"
           ++ digit i ++ ".png")
      (seq 0 8).

Definition COIN_TEXTURE := ":resources:images/items/coinGold.png".
Definition GROUND_TEXTURE := ":resources:images/tiles/grassMid.png".
Definition PLATFORM_TEXTURE := ":resources:images/tiles/boxCrate_double.png".
Definition ENEMY_TEXTURE := ":resources:images/enemies/slimePurple.png".
Definition LAVA_TEXTURE := ":resources:images/tiles/lava.png".
Definition WATER_TEXTURE := ":resources:images/tiles/water.png".
Definition FLAG_TEXTURE := ":resources:images/tiles/signExit.png".

Close Scope string_scope.

(** ** The framework's sprite

    What the sources read and write of an [arcade.Sprite]: its texture and
    scale (which fix its hit box), its centre, its per-frame velocity, the
    width override the hazards set, and its opacity.  The centre is the one
    position a sprite has: drawing and overlap queries both use it. *)

Module Sprite.

Record t := mk {
  texture : string;
  scale : Q;
  center_x : Q;
  center_y : Q;
  change_x : Q;
  change_y : Q;
  width : option Q;
  alpha : Z
}.

(** [arcade.Sprite(texture, scale)]: at the origin, at rest, opaque. *)
Definition new (tex : string) (sc : Q) : t :=
  mk tex sc 0 0 0 0 None 255.

Definition set_texture (s : t) (v : string) : t :=
  mk v (scale s) (center_x s) (center_y s) (change_x s) (change_y s)
     (width s) (alpha s).
Definition set_center_x (s : t) (v : Q) : t :=
  mk (texture s) (scale s) v (center_y s) (change_x s) (change_y s)
     (width s) (alpha s).
Definition set_center_y (s : t) (v : Q) : t :=
  mk (texture s) (scale s) (center_x s) v (change_x s) (change_y s)
     (width s) (alpha s).
Definition set_change_x (s : t) (v : Q) : t :=
  mk (texture s) (scale s) (center_x s) (center_y s) v (change_y s)
     (width s) (alpha s).
Definition set_change_y (s : t) (v : Q) : t :=
  mk (texture s) (scale s) (center_x s) (center_y s) (change_x s) v
     (width s) (alpha s).
Definition set_width (s : t) (v : Q) : t :=
  mk (texture s) (scale s) (center_x s) (center_y s) (change_x s)
     (change_y s) (Some v) (alpha s).
Definition set_alpha (s : t) (v : Z) : t :=
  mk (texture s) (scale s) (center_x s) (center_y s) (change_x s)
     (change_y s) (width s) v.

(** [s.center_x, s.center_y = p] *)
Definition set_position (s : t) (p : Q * Q) : t :=
  set_center_y (set_center_x s (fst p)) (snd p).

End Sprite.

(** ** src/sprites/enemy.py *)

Module EnemySprite.

(** The [spec] dictionary of an enemy in the level data. *)
Record spec := mk_spec {
  spec_position : Q * Q;
  spec_patrol_min_x : Q;
  spec_patrol_max_x : Q;
  spec_speed : Q
}.

Record t := mk {
  sprite : Sprite.t;
  patrol_min_x : Q;
  patrol_max_x : Q
}.

Definition center_x (self : t) : Q := Sprite.center_x (sprite self).
Definition change_x (self : t) : Q := Sprite.change_x (sprite self).

Definition set_center_x (self : t) (v : Q) : t :=
  mk (Sprite.set_center_x (sprite self) v) (patrol_min_x self)
     (patrol_max_x self).
Definition set_change_x (self : t) (v : Q) : t :=
  mk (Sprite.set_change_x (sprite self) v) (patrol_min_x self)
     (patrol_max_x self).

(** [EnemySprite.__init__] *)
Definition init (sp : spec) : t :=
  let s := Sprite.new ENEMY_TEXTURE ENEMY_SCALING in
  let s := Sprite.set_position s (spec_position sp) in
  let s := Sprite.set_change_x s (spec_speed sp) in
  mk s (spec_patrol_min_x sp) (spec_patrol_max_x sp).

(** [EnemySprite.update]: the step does not use [delta_time]. *)
Definition update (self : t) : t :=
  let self := set_center_x self (center_x self + change_x self) in
  if Py.ltb (center_x self) (patrol_min_x self) then
    let self := set_center_x self (patrol_min_x self) in
    set_change_x self (change_x self * -1)
  else if Py.ltb (patrol_max_x self) (center_x self) then
    let self := set_center_x self (patrol_max_x self) in
    set_change_x self (change_x self * -1)
  else self.

End EnemySprite.

(** ** src/sprites/hazards.py *)

Module Hazard.

Inductive kind := Lava | Water.

(** A hazard entry of the level data. *)
Record spec := mk_spec {
  spec_type : string;
  spec_position : Q * Q;
  spec_width : Q
}.

(** [LavaHazard] and [WaterHazard] have the same fields and differ in
    their texture and in [update_animation]. *)
Record t := mk {
  cls : kind;
  sprite : Sprite.t;
  time : Q;
  base_y : Q
}.

Definition center_x (self : t) : Q := Sprite.center_x (sprite self).
Definition center_y (self : t) : Q := Sprite.center_y (sprite self).

(** [LavaHazard.__init__] *)
Definition LavaHazard (position : Q * Q) (w : Q) : t :=
  let s := Sprite.new LAVA_TEXTURE HAZARD_SCALING in
  let s := Sprite.set_position s position in
  let s := Sprite.set_width s w in
  mk Lava s 0.0 (snd position).

(** [WaterHazard.__init__] *)
Definition WaterHazard (position : Q * Q) (w : Q) : t :=
  let s := Sprite.new WATER_TEXTURE HAZARD_SCALING in
  let s := Sprite.set_position s position in
  let s := Sprite.set_width s w in
  mk Water s 0.0 (snd position).

(** [LavaHazard.update_animation]:
    [alpha = int(200 + 55 * abs(int(time * 4) % 2))]. *)
Definition lava_update_animation (self : t) (delta_time : Q) : t :=
  let time' := time self + delta_time in
  let a := (200 + 55 * Z.abs (Py.int (time' * 4) mod 2))%Z in
  mk (cls self) (Sprite.set_alpha (sprite self) a) time' (base_y self).

(** [WaterHazard.update_animation]:
    [offset = int(3 * (time * 2) % 2)], where [*] and [%] associate to the
    left, and [center_y = base_y + offset]. *)
Definition water_offset (time' : Q) : Z :=
  Py.int (Py.fmod (3 * (time' * 2)) 2).

Definition water_update_animation (self : t) (delta_time : Q) : t :=
  let time' := time self + delta_time in
  let offset := water_offset time' in
  mk (cls self)
     (Sprite.set_center_y (sprite self) (base_y self + inject_Z offset))
     time' (base_y self).

(** Dynamic dispatch of [hazard.update_animation(delta_time)]. *)
Definition update_animation (self : t) (delta_time : Q) : t :=
  match cls self with
  | Lava => lava_update_animation self delta_time
  | Water => water_update_animation self delta_time
  end.

End Hazard.

(** ** src/sprites/player.py *)

Module PlayerSprite.

Record t := mk {
  sprite : Sprite.t;
  idle_texture : string;
  jump_texture : string;
  walk_textures : list string;
  facing_right : bool;
  flip_h : bool;
  cur_walk_frame : nat;
  _frame_time : Q
}.

Definition center_x (self : t) : Q := Sprite.center_x (sprite self).
Definition center_y (self : t) : Q := Sprite.center_y (sprite self).
Definition change_x (self : t) : Q := Sprite.change_x (sprite self).
Definition change_y (self : t) : Q := Sprite.change_y (sprite self).

Definition set_sprite (self : t) (s : Sprite.t) : t :=
  mk s (idle_texture self) (jump_texture self) (walk_textures self)
     (facing_right self) (flip_h self) (cur_walk_frame self)
     (_frame_time self).
Definition set_change_x (self : t) (v : Q) : t :=
  set_sprite self (Sprite.set_change_x (sprite self) v).
Definition set_change_y (self : t) (v : Q) : t :=
  set_sprite self (Sprite.set_change_y (sprite self) v).

(** [PlayerSprite.__init__]: a sprite without texture until the idle
    texture of the chosen character is assigned. *)
Definition init (gender : string) : t :=
  let male := String.eqb gender "male" in
  let idle := if male then PLAYER_MALE_IDLE else PLAYER_FEMALE_IDLE in
  let jump := if male then PLAYER_MALE_JUMP else PLAYER_FEMALE_JUMP in
  let walk := if male then PLAYER_MALE_WALK else PLAYER_FEMALE_WALK in
  mk (Sprite.new idle CHARACTER_SCALING) idle jump walk true false 0%nat 0.0.

(** [PlayerSprite.update_animation]: picks the texture and the facing;
    the centre and the velocity are read only. *)
Definition update_animation (self : t) (delta_time : Q) : t :=
  let facing :=
    if Py.ltb (change_x self) 0 then false
    else if Py.ltb 0 (change_x self) then true
    else facing_right self in
  let is_jumping := Py.ltb 1 (change_y self) || Py.ltb (change_y self) (-1) in
  let is_moving := Py.ltb 0.1 (Qabs (change_x self)) in
  if is_jumping then
    mk (Sprite.set_texture (sprite self) (jump_texture self))
       (idle_texture self) (jump_texture self) (walk_textures self)
       facing (negb facing) (cur_walk_frame self) (_frame_time self)
  else if is_moving then
    let ft := _frame_time self + delta_time in
    let advance := Py.ltb ANIMATION_RATE ft in
    let ft := if advance then 0 else ft in
    let frame :=
      if advance
      then ((cur_walk_frame self + 1) mod List.length (walk_textures self))%nat
      else cur_walk_frame self in
    mk (Sprite.set_texture (sprite self)
          (nth frame (walk_textures self) (idle_texture self)))
       (idle_texture self) (jump_texture self) (walk_textures self)
       facing (negb facing) frame ft
  else
    mk (Sprite.set_texture (sprite self) (idle_texture self))
       (idle_texture self) (jump_texture self) (walk_textures self)
       facing (negb facing) 0%nat 0.

End PlayerSprite.

(** ** src/levels/level_data.py *)

Module Level.

(** A level dictionary.  [hazards] and [kill_plane_y] are read with
    [level.get(key, default)], so the key may be absent. *)
Record t := mk {
  name : string;
  player_start : Q * Q;
  ground_segments : list (Z * Z * Q);
  platforms : list (Q * Q);
  coins : list (Q * Q);
  goal_position : Q * Q;
  enemies : list EnemySprite.spec;
  hazards : option (list Hazard.spec);
  kill_plane_y : option Q
}.

End Level.

(** A ground segment [(start_x, end_x, y)]: the two ends are integers, fed to
    [range]. *)
Definition segment (start_x end_x : Z) (y : Q) : Z * Z * Q :=
  (start_x, end_x, y).
Definition enemy_spec := EnemySprite.mk_spec.
Definition hazard_spec := Hazard.mk_spec.

Definition LEVELS : list Level.t :=
  [ Level.mk "Forest Path" (100, 200)
      [ segment 0 300 100; segment 400 700 100; segment 800 1000 100 ]
      [ (200, 150); (500, 200); (600, 250); (900, 200) ]
      [ (250, 220); (350, 220); (550, 270); (650, 320); (950, 270) ]
      (950, 270)
      [ enemy_spec (300, 170) 250 350 2.0 ]
      (Some [])
      (Some KILL_PLANE_Y);
    Level.mk "Mountain Climb" (100, 150)
      [ segment 0 200 100; segment 300 500 150; segment 600 800 200;
        segment 850 1000 250 ]
      [ (250, 200); (450, 250); (550, 300); (750, 350); (900, 400) ]
      [ (150, 170); (350, 320); (450, 370); (600, 370); (650, 420);
        (800, 470); (950, 520) ]
      (950, 520)
      [ enemy_spec (400, 220) 350 450 2.5;
        enemy_spec (700, 270) 650 750 2.5 ]
      (Some [ hazard_spec "lava" (250, 75) 150 ])
      (Some KILL_PLANE_Y);
    Level.mk "Volcano Challenge" (100, 200)
      [ segment 0 150 100; segment 200 350 150; segment 400 550 200;
        segment 600 750 150;
        segment 800 1000 200 ]
      [ (300, 250); (500, 300); (700, 250); (850, 300) ]
      [ (120, 270); (250, 320); (350, 370); (450, 420); (550, 420);
        (650, 320); (750, 370); (900, 420) ]
      (950, 420)
      [ enemy_spec (250, 220) 200 300 3.0;
        enemy_spec (450, 270) 400 500 3.0;
        enemy_spec (650, 220) 600 700 3.0 ]
      (Some [ hazard_spec "lava" (175, 75) 100;
              hazard_spec "water" (375, 75) 150;
              hazard_spec "lava" (775, 75) 200 ])
      (Some KILL_PLANE_Y) ].

(** ** src/views/game_over_view.py (what the session hands over) *)

Module GameOverView.

(** [GameOverView(did_win, score, level_name)] *)
Record t := mk {
  did_win : bool;
  score : Z;
  level_name : string
}.

End GameOverView.

(** ** src/views/game_view.py *)

Module GameView.

(** The sprite lists of [arcade.Scene].  The ["Player"] list holds the one
    object that [self.player] also names, so it is not kept twice. *)
Record Scene := mk_scene {
  Walls : list Sprite.t;
  Coins : list Sprite.t;
  Goal : list Sprite.t;
  Enemies : list EnemySprite.t;
  Hazards : list Hazard.t
}.

(** [arcade.PhysicsEnginePlatformer(player, walls=..., gravity_constant=...)]:
    the engine keeps the walls and the gravity; the player it moves is
    [self.player]. *)
Record PhysicsEnginePlatformer := mk_engine {
  walls : list Sprite.t;
  gravity_constant : Q
}.

Record t := mk {
  gender : string;
  scene : Scene;
  player : option PlayerSprite.t;
  physics_engine : option PhysicsEnginePlatformer;
  level_index : Z;
  score : Z;
  health : Z;
  total_coins : Z;
  level_name : string;
  invuln_timer : Q;
  move_left : bool;
  move_right : bool
}.

Definition set_scene (self : t) (v : Scene) : t :=
  mk (gender self) v (player self) (physics_engine self) (level_index self)
     (score self) (health self) (total_coins self) (level_name self)
     (invuln_timer self) (move_left self) (move_right self).
Definition set_player (self : t) (v : option PlayerSprite.t) : t :=
  mk (gender self) (scene self) v (physics_engine self) (level_index self)
     (score self) (health self) (total_coins self) (level_name self)
     (invuln_timer self) (move_left self) (move_right self).
Definition set_level_index (self : t) (v : Z) : t :=
  mk (gender self) (scene self) (player self) (physics_engine self) v
     (score self) (health self) (total_coins self) (level_name self)
     (invuln_timer self) (move_left self) (move_right self).
Definition set_score (self : t) (v : Z) : t :=
  mk (gender self) (scene self) (player self) (physics_engine self)
     (level_index self) v (health self) (total_coins self)
     (level_name self) (invuln_timer self) (move_left self)
     (move_right self).
Definition set_health (self : t) (v : Z) : t :=
  mk (gender self) (scene self) (player self) (physics_engine self)
     (level_index self) (score self) v (total_coins self)
     (level_name self) (invuln_timer self) (move_left self)
     (move_right self).
Definition set_invuln_timer (self : t) (v : Q) : t :=
  mk (gender self) (scene self) (player self) (physics_engine self)
     (level_index self) (score self) (health self) (total_coins self)
     (level_name self) v (move_left self) (move_right self).
Definition set_move_left (self : t) (v : bool) : t :=
  mk (gender self) (scene self) (player self) (physics_engine self)
     (level_index self) (score self) (health self) (total_coins self)
     (level_name self) (invuln_timer self) v (move_right self).
Definition set_move_right (self : t) (v : bool) : t :=
  mk (gender self) (scene self) (player self) (physics_engine self)
     (level_index self) (score self) (health self) (total_coins self)
     (level_name self) (invuln_timer self) (move_left self) v.

Definition set_Coins (sc : Scene) (v : list Sprite.t) : Scene :=
  mk_scene (Walls sc) v (Goal sc) (Enemies sc) (Hazards sc).
Definition set_Enemies (sc : Scene) (v : list EnemySprite.t) : Scene :=
  mk_scene (Walls sc) (Coins sc) (Goal sc) v (Hazards sc).
Definition set_Hazards (sc : Scene) (v : list Hazard.t) : Scene :=
  mk_scene (Walls sc) (Coins sc) (Goal sc) (Enemies sc) v.

(** The fields that no stage of a frame writes before the lose check. *)
Definition statics (g : t) :=
  (gender g, physics_engine g, level_index g, total_coins g, level_name g,
   move_left g, move_right g, Walls (scene g), Goal (scene g)).

(** The keys [on_key_press] and [on_key_release] tell apart. *)
Inductive key := A | LEFT | D | RIGHT | W | UP | SPACE | ENTER | OTHER.

(** [GameView.__init__] *)
Definition init (gender : string) : t :=
  mk gender (mk_scene [] [] [] [] []) None None 0 0 PLAYER_MAX_HEALTH 0
     EmptyString 0.0 false false.

(** A static sprite of the level: texture, scale and centre. *)
Definition place (tex : string) (sc : Q) (p : Q * Q) : Sprite.t :=
  Sprite.set_position (Sprite.new tex sc) p.

(** [GameView.setup]: [None] when [LEVELS[level_index]] raises. *)
Definition setup (self : t) (level_index : Z) : option t :=
  match Py.index LEVELS level_index with
  | None => None
  | Some level =>
    let player :=
      let p := PlayerSprite.init (gender self) in
      PlayerSprite.set_sprite p
        (Sprite.set_position (PlayerSprite.sprite p)
           (Level.player_start level)) in
    let ground :=
      flat_map
        (fun seg : Z * Z * Q =>
           let '(start_x, end_x, y) := seg in
           map (fun x => place GROUND_TEXTURE TILE_SCALING (inject_Z x, y))
               (Py.range start_x end_x 64))
        (Level.ground_segments level) in
    let platforms :=
      map (place PLATFORM_TEXTURE TILE_SCALING) (Level.platforms level) in
    let coins := map (place COIN_TEXTURE COIN_SCALING) (Level.coins level) in
    let goal :=
      place FLAG_TEXTURE (TILE_SCALING * 1.5) (Level.goal_position level) in
    let enemies := map EnemySprite.init (Level.enemies level) in
    let hazards :=
      map (fun hs =>
             if String.eqb (Hazard.spec_type hs) "lava"
             then Hazard.LavaHazard (Hazard.spec_position hs)
                                    (Hazard.spec_width hs)
             else Hazard.WaterHazard (Hazard.spec_position hs)
                                     (Hazard.spec_width hs))
          (match Level.hazards level with Some hs => hs | None => [] end) in
    let sc := mk_scene (ground ++ platforms) coins [goal] enemies hazards in
    Some (mk (gender self) sc (Some player)
             (Some (mk_engine (Walls sc) GRAVITY))
             level_index
             (if (level_index =? 0)%Z then 0%Z else score self)
             (if (level_index =? 0)%Z then PLAYER_MAX_HEALTH else health self)
             (Z.of_nat (List.length (Level.coins level)))
             (Level.name level)
             0.0
             (move_left self) (move_right self))
  end.

Section Framework.

(** [PhysicsEnginePlatformer.update()]: moves the player sprite against
    the engine's walls under its gravity.  It takes no elapsed time. *)
Variable physics_update : PhysicsEnginePlatformer -> Sprite.t -> Sprite.t.

(** [PhysicsEnginePlatformer.can_jump()] *)
Variable can_jump : PhysicsEnginePlatformer -> Sprite.t -> bool.

(** [arcade.check_for_collision(a, b)] *)
Variable check_for_collision : Sprite.t -> Sprite.t -> bool.

(** [arcade.check_for_collision_with_list(sprite, sprite_list)] *)
Definition check_for_collision_with_list {S} (as_sprite : S -> Sprite.t)
    (sprite : Sprite.t) (sprite_list : list S) : list S :=
  filter (fun o => check_for_collision sprite (as_sprite o)) sprite_list.

(** [GameView._handle_input] *)
Definition _handle_input (self : t) : t :=
  match player self with
  | None => self
  | Some p =>
    let dx := 0 in
    let dx := if move_left self then dx - PLAYER_MOVE_SPEED else dx in
    let dx := if move_right self then dx + PLAYER_MOVE_SPEED else dx in
    set_player self (Some (PlayerSprite.set_change_x p dx))
  end.

(** [GameView._check_coin_collisions]: every coin hit leaves the sprite
    lists and adds one to the score. *)
Definition _check_coin_collisions (self : t) : t :=
  match player self with
  | None => self
  | Some p =>
    let coins_hit :=
      check_for_collision_with_list (fun c => c) (PlayerSprite.sprite p)
        (Coins (scene self)) in
    let remaining :=
      filter (fun c => negb (check_for_collision (PlayerSprite.sprite p) c))
             (Coins (scene self)) in
    fold_left (fun g _ => set_score g (score g + 1)%Z) coins_hit
              (set_scene self (set_Coins (scene self) remaining))
  end.

(** [GameView._check_enemy_collisions] *)
Definition _check_enemy_collisions (self : t) (delta_time : Q) : t :=
  match player self with
  | None => self
  | Some p =>
    let self :=
      set_invuln_timer self (Py.max 0.0 (invuln_timer self - delta_time)) in
    if Py.ltb 0 (invuln_timer self) then self
    else
      let hits :=
        check_for_collision_with_list EnemySprite.sprite
          (PlayerSprite.sprite p) (Enemies (scene self)) in
      match hits with
      | [] => self
      | _ :: _ =>
        let self := set_health self (health self - 1)%Z in
        let self := set_invuln_timer self 1.0 in
        let p := PlayerSprite.set_change_y p (PLAYER_JUMP_SPEED / 2) in
        let p := PlayerSprite.set_change_x p (PlayerSprite.change_x p * -1) in
        set_player self (Some p)
      end
  end.

(** [GameView._check_hazard_collisions]: [delta_time] is not used. *)
Definition _check_hazard_collisions (self : t) (delta_time : Q) : t :=
  match player self with
  | None => self
  | Some p =>
    if Py.ltb 0 (invuln_timer self) then self
    else
      let hazards_hit :=
        check_for_collision_with_list Hazard.sprite
          (PlayerSprite.sprite p) (Hazards (scene self)) in
      match hazards_hit with
      | [] => self
      | _ :: _ =>
        let self := set_health self (health self - 1)%Z in
        let self := set_invuln_timer self 1.0 in
        let p := PlayerSprite.set_change_y p (PLAYER_JUMP_SPEED / 1.5) in
        set_player self (Some p)
      end
  end.

(** [GameView._check_goal] *)
Definition _check_goal (self : t) : bool :=
  match player self with
  | None => false
  | Some p =>
    match Goal (scene self) with
    | goal :: _ =>
      if check_for_collision (PlayerSprite.sprite p) goal
      then (total_coins self <=? score self)%Z
      else false
    | [] => false
    end
  end.

(** [GameView._check_lose]: [None] when [LEVELS[self.level_index]]
    raises. *)
Definition _check_lose (self : t) : option bool :=
  match player self with
  | None => Some true
  | Some p =>
    if (health self <=? 0)%Z then Some true
    else
      match Py.index LEVELS (level_index self) with
      | None => None
      | Some level =>
        let kill :=
          match Level.kill_plane_y level with
          | Some y => y
          | None => KILL_PLANE_Y
          end in
        Some (Py.ltb (PlayerSprite.center_y p) kill)
      end
  end.

(** [GameView.on_update], lines 317-323: input, the physics step, the
    player's animation, the enemies' patrol step and the hazards'
    animation.  Only the two animations receive [delta_time]. *)
Definition animate (engine : PhysicsEnginePlatformer) (self : t)
    (delta_time : Q) : t :=
  let self := _handle_input self in
  let self :=
    set_player self
      (option_map
         (fun p =>
            PlayerSprite.set_sprite p
              (physics_update engine (PlayerSprite.sprite p)))
         (player self)) in
  let self :=
    set_player self
      (option_map (fun p => PlayerSprite.update_animation p delta_time)
                  (player self)) in
  let self :=
    set_scene self
      (set_Enemies (scene self)
         (map EnemySprite.update (Enemies (scene self)))) in
  set_scene self
    (set_Hazards (scene self)
       (map (fun h => Hazard.update_animation h delta_time)
            (Hazards (scene self)))).

(** [GameView.on_update], lines 317-327: [animate], then the three
    collision checks in their order. *)
Definition simulate (engine : PhysicsEnginePlatformer) (self : t)
    (delta_time : Q) : t :=
  let self := animate engine self delta_time in
  let self := _check_coin_collisions self in
  let self := _check_enemy_collisions self delta_time in
  _check_hazard_collisions self delta_time.

(** [GameView.on_update], lines 329-363: the lose check, then the goal
    check.  The result is the view after the frame and the game-over
    view handed to [window.show_view], if any. *)
Definition resolve (self : t) : option (t * option GameOverView.t) :=
  match _check_lose self with
  | None => None
  | Some true =>
    Some (self,
          Some (GameOverView.mk false (score self) (level_name self)))
  | Some false =>
    if _check_goal self then
      if (level_index self + 1 <? Z.of_nat (List.length LEVELS))%Z then
        let self := set_level_index self (level_index self + 1)%Z in
        match setup self (level_index self) with
        | None => None
        | Some self => Some (self, None)
        end
      else
        Some (self,
              Some (GameOverView.mk true (score self) (level_name self)))
    else Some (self, None)
  end.

(** [GameView.on_update] *)
Definition on_update (self : t) (delta_time : Q)
    : option (t * option GameOverView.t) :=
  match physics_engine self, player self with
  | Some engine, Some _ => resolve (simulate engine self delta_time)
  | _, _ => Some (self, None)
  end.

(** [GameView.on_key_press] *)
Definition on_key_press (self : t) (k : key) : t :=
  match player self, physics_engine self with
  | Some p, Some engine =>
    match k with
    | A | LEFT => set_move_left self true
    | D | RIGHT => set_move_right self true
    | W | UP | SPACE =>
      if can_jump engine (PlayerSprite.sprite p)
      then set_player self
             (Some (PlayerSprite.set_change_y p PLAYER_JUMP_SPEED))
      else self
    | _ => self
    end
  | _, _ => self
  end.

(** [GameView.on_key_release] *)
Definition on_key_release (self : t) (k : key) : t :=
  match k with
  | A | LEFT => set_move_left self false
  | D | RIGHT => set_move_right self false
  | _ => self
  end.

(** *** The session, as the window drives it

    The window sends updates and key events to the view it shows.  Once
    [on_update] has shown a game-over view, the game view receives
    nothing more: the session is over. *)

Inductive event :=
| Update (delta_time : Q)
| KeyPress (k : key)
| KeyRelease (k : key).

Inductive window :=
| Playing (g : t)
| Over (g : t) (v : GameOverView.t).

Definition view (w : window) : t :=
  match w with Playing g => g | Over g _ => g end.

Definition dispatch (w : window) (e : event) : option window :=
  match w with
  | Over _ _ => Some w
  | Playing g =>
    match e with
    | Update delta_time =>
      match on_update g delta_time with
      | None => None
      | Some (g', None) => Some (Playing g')
      | Some (g', Some v) => Some (Over g' v)
      end
    | KeyPress k => Some (Playing (on_key_press g k))
    | KeyRelease k => Some (Playing (on_key_release g k))
    end
  end.

(** A session starts as [CharacterSelectView.on_key_press] starts it:
    [GameView(gender)], then [setup(level_index=0)]. *)
Inductive reachable : window -> Prop :=
| reachable_start gender g :
    setup (init gender) 0 = Some g -> reachable (Playing g)
| reachable_step w e w' :
    reachable w -> dispatch w e = Some w' -> reachable w'.

(** A run of the session over a list of events. *)
Fixpoint run (w : window) (events : list event) : option window :=
  match events with
  | [] => Some w
  | e :: rest =>
    match dispatch w e with
    | Some w' => run w' rest
    | None => None
    end
  end.

End Framework.

End GameView.

(** ** Sample collaborators

    Concrete stand-ins for the framework, used to run the embedding on
    concrete sessions. *)

Module Sample.

(** The engine's step for a player touching no wall: gravity is taken
    from the vertical velocity, then the velocity is added to the
    centre. *)
Definition free_fall (engine : GameView.PhysicsEnginePlatformer)
    (s : Sprite.t) : Sprite.t :=
  let s :=
    Sprite.set_change_y s
      (Sprite.change_y s - GameView.gravity_constant engine) in
  let s := Sprite.set_center_y s (Sprite.center_y s + Sprite.change_y s) in
  Sprite.set_center_x s (Sprite.center_x s + Sprite.change_x s).

(** The engine's step for a player that stays where it is. *)
Definition at_rest (engine : GameView.PhysicsEnginePlatformer)
    (s : Sprite.t) : Sprite.t := s.

Definition airborne (engine : GameView.PhysicsEnginePlatformer)
    (s : Sprite.t) : bool := false.

(** Overlap of two axis-aligned boxes of half-extent 32 around the
    centres. *)
Definition boxes (a b : Sprite.t) : bool :=
  Py.ltb (Qabs (Sprite.center_x a - Sprite.center_x b)) 64
  && Py.ltb (Qabs (Sprite.center_y a - Sprite.center_y b)) 64.

(** Every pair of sprites overlaps. *)
Definition touching (a b : Sprite.t) : bool := true.

(** A fresh session on level 0. *)
Definition fresh : GameView.t :=
  match GameView.setup (GameView.init "female") 0 with
  | Some g => g
  | None => GameView.init "female"
  end.

(** The view [self] with its player sprite moved to [p]. *)
Definition move_player (self : GameView.t) (p : Q * Q) : GameView.t :=
  GameView.set_player self
    (option_map
       (fun pl =>
          PlayerSprite.set_sprite pl
            (Sprite.set_position (PlayerSprite.sprite pl) p))
       (GameView.player self)).

(** A session on the last level, all coins of the playthrough collected,
    one heart left, the player on the goal marker. *)
Definition last_heart : GameView.t :=
  match
    GameView.setup
      (GameView.set_score (GameView.set_health (GameView.init "female") 1) 20)
      2
  with
  | Some g => move_player g (950, 420)
  | None => GameView.init "female"
  end.

(** A session on the last level with the player above the water hazard,
    half a unit out of reach of its box. *)
Definition above_water : GameView.t :=
  match GameView.setup (GameView.init "female") 2 with
  | Some g => move_player g (375, 139.5)
  | None => GameView.init "female"
  end.

(** The player and the engine of a view that has been set up. *)
Definition the_player (g : GameView.t) : PlayerSprite.t :=
  match GameView.player g with
  | Some p => p
  | None => PlayerSprite.init "female"
  end.

Definition the_engine (g : GameView.t) : GameView.PhysicsEnginePlatformer :=
  match GameView.physics_engine g with
  | Some e => e
  | None => GameView.mk_engine [] GRAVITY
  end.

(** The fresh session after one frame of zero length in free fall. *)
Definition fresh_next : GameView.t :=
  match GameView.on_update free_fall boxes fresh 0 with
  | Some (g, _) => g
  | None => fresh
  end.

(** A view that carries five coins and two hearts, and the same view set
    up for the second level. *)
Definition carrying : GameView.t :=
  GameView.set_score (GameView.set_health (GameView.init "female") 2) 5.

Definition second_level : GameView.t :=
  match GameView.setup carrying 1 with
  | Some g => g
  | None => carrying
  end.

(** The fresh session with the player on the first coin of level 0. *)
Definition on_coin : GameView.t := move_player fresh (250, 220).

(** The same within the second of invulnerability that follows a hit,
    with one heart left. *)
Definition shielded : GameView.t :=
  GameView.set_invuln_timer (GameView.set_health on_coin 1) 1.0.

(** The engine's step for a player carried to the top of the second
    level, where its goal marker stands. *)
Definition lift (engine : GameView.PhysicsEnginePlatformer)
    (s : Sprite.t) : Sprite.t :=
  Sprite.set_position s (950, 520).

(** Overlap of two axis-aligned boxes of half-extent 80 around the
    centres. *)
Definition reach (a b : Sprite.t) : bool :=
  Py.ltb (Qabs (Sprite.center_x a - Sprite.center_x b)) 160
  && Py.ltb (Qabs (Sprite.center_y a - Sprite.center_y b)) 160.

(** The second level after a key press, and after the frame that follows
    it with the player carried to the goal. *)
Definition second_steered : GameView.t :=
  GameView.on_key_press airborne second_level GameView.D.

Definition second_cleared : GameView.t :=
  match GameView.on_update lift reach second_steered 0 with
  | Some (g, _) => g
  | None => second_steered
  end.

(** The first frame of a fresh session with the player at rest and every
    pair of sprites overlapping. *)
Definition fresh_cleared : GameView.t :=
  match GameView.on_update at_rest touching fresh 0 with
  | Some (g, _) => g
  | None => fresh
  end.

(** The enemy of level 0. *)
Definition slime : EnemySprite.t :=
  EnemySprite.init (enemy_spec (300, 170) 250 350 2.0).

(** Three frames of zero length from a fresh session, with the player
    at rest and every pair of sprites overlapping: each frame collects
    the coins, costs a heart and opens the goal, until no heart is
    left. *)
Definition played_out : GameView.window :=
  match
    GameView.run at_rest airborne touching (GameView.Playing fresh)
      [GameView.Update 0; GameView.Update 0; GameView.Update 0]
  with
  | Some w => w
  | None => GameView.Playing fresh
  end.

(** The fresh session after one such frame. *)
Definition entered_second : GameView.window :=
  match
    GameView.dispatch at_rest airborne touching (GameView.Playing fresh)
      (GameView.Update 0)
  with
  | Some w => w
  | None => GameView.Playing fresh
  end.

Definition final_report : GameOverView.t :=
  match played_out with
  | GameView.Over _ v => v
  | GameView.Playing _ => GameOverView.mk false 0 ""
  end.

(** The water hazard of the last level. *)
Definition pool : Hazard.t := Hazard.WaterHazard (375, 75) 150.

End Sample.

(** ** Two statements of the design notes, as predicates

    Both are examined below against the code. *)

(** "The collision box of a water hazard does not move": after any
    sequence of [update_animation] calls the position that overlap queries
    read is the initial one. *)
Definition water_box_fixed (h : Hazard.t) (delta_times : list Q) : Prop :=
  Hazard.center_y (fold_left Hazard.update_animation delta_times h)
  == Hazard.center_y h.

Section RoundTrip.

Variable physics_update :
  GameView.PhysicsEnginePlatformer -> Sprite.t -> Sprite.t.
Variable check_for_collision : Sprite.t -> Sprite.t -> bool.

(** The number of coins of [g] that overlap the sprite [s]. *)
Definition coins_under (s : Sprite.t) (g : GameView.t) : Z :=
  Z.of_nat
    (List.length
       (filter (check_for_collision s) (GameView.Coins (GameView.scene g)))).

(** Whether an enemy or a hazard of [g] overlaps the sprite [s]. *)
Definition harm_under (s : Sprite.t) (g : GameView.t) : bool :=
  existsb (fun e => check_for_collision s (EnemySprite.sprite e))
          (GameView.Enemies (GameView.scene g))
  || existsb (fun h => check_for_collision s (Hazard.sprite h))
             (GameView.Hazards (GameView.scene g)).


End RoundTrip.

(** ** The session invariant

    While the game view is shown the player has at least one heart, the
    level index is that of a level of the catalog, the timer is not
    negative, and the player and the physics engine exist.  Once a
    game-over view is shown the health may have reached zero. *)

Definition kill_plane (level : Level.t) : Q :=
  match Level.kill_plane_y level with
  | Some y => y
  | None => KILL_PLANE_Y
  end.

Definition sound (w : GameView.window) : Prop :=
  match w with
  | GameView.Playing g =>
    (1 <= GameView.health g <= PLAYER_MAX_HEALTH)%Z
    /\ (0 <= GameView.level_index g < Z.of_nat (List.length LEVELS))%Z
    /\ 0 <= GameView.invuln_timer g
    /\ (0 <= GameView.score g)%Z
    /\ GameView.player g <> None
    /\ GameView.physics_engine g <> None
  | GameView.Over g v =>
    (0 <= GameView.health g <= PLAYER_MAX_HEALTH)%Z
    /\ 0 <= GameView.invuln_timer g
    /\ (0 <= GameView.score g)%Z
    /\ (GameView.health g = 0%Z -> GameOverView.did_win v = false)
  end.

(** ** src/views/start_view.py, character_select.py: the menus

    What the menu views decide: which view the window shows next, and
    which character the game starts with.  Their clocks and particles only
    feed the drawing code (the particles come from [random]) and are left
    out. *)

Module CharacterSelectView.

(** [selected]: 0 is male, 1 is female. *)
Record t := mk {
  selected : Z
}.

(** [CharacterSelectView.__init__] *)
Definition init : t := mk 0.

(** The gender string handed to [GameView]. *)
Definition gender (self : t) : string :=
  if (selected self =? 0)%Z then "male"%string else "female"%string.

End CharacterSelectView.

Module Window.

(** The view the window shows. *)
Inductive view :=
| Start
| Select (v : CharacterSelectView.t)
| Game (g : GameView.t)
| GameOver (v : GameOverView.t).

Section Framework.

Variable physics_update :
  GameView.PhysicsEnginePlatformer -> Sprite.t -> Sprite.t.
Variable can_jump : GameView.PhysicsEnginePlatformer -> Sprite.t -> bool.
Variable check_for_collision : Sprite.t -> Sprite.t -> bool.

(** The [on_key_press] of the view shown: [StartView], then
    [CharacterSelectView], [GameView], [GameOverView]. *)
Definition on_key_press (w : view) (k : GameView.key) : option view :=
  match w with
  | Start =>
    match k with
    | GameView.ENTER | GameView.SPACE => Some (Select CharacterSelectView.init)
    | _ => Some w
    end
  | Select v =>
    match k with
    | GameView.LEFT | GameView.A => Some (Select (CharacterSelectView.mk 0))
    | GameView.RIGHT | GameView.D => Some (Select (CharacterSelectView.mk 1))
    | GameView.ENTER | GameView.SPACE =>
      let game_view := GameView.init (CharacterSelectView.gender v) in
      match GameView.setup game_view 0 with
      | Some game_view => Some (Game game_view)
      | None => None
      end
    | _ => Some w
    end
  | Game g => Some (Game (GameView.on_key_press can_jump g k))
  | GameOver v =>
    match k with
    | GameView.ENTER => Some Start
    | _ => Some w
    end
  end.

(** The [on_update] of the view shown; the menus only advance their
    drawing clocks. *)
Definition on_update (w : view) (delta_time : Q) : option view :=
  match w with
  | Game g =>
    match GameView.on_update physics_update check_for_collision g delta_time
    with
    | None => None
    | Some (g', None) => Some (Game g')
    | Some (_, Some v) => Some (GameOver v)
    end
  | _ => Some w
  end.

(** A sequence of key presses. *)
Fixpoint press (w : view) (keys : list GameView.key) : option view :=
  match keys with
  | [] => Some w
  | k :: rest =>
    match on_key_press w k with
    | Some w' => press w' rest
    | None => None
    end
  end.

End Framework.

End Window.

(** ** Quantities of the level catalog *)

(** The coins placed in the levels up to and including index [i]. *)
Definition coins_through (i : Z) : Z :=
  Z.of_nat
    (List.length (flat_map Level.coins (firstn (Z.to_nat (i + 1)) LEVELS))).

(** An enemy within its patrol bounds, the bounds ordered. *)
Definition on_patrol (e : EnemySprite.t) : Prop :=
  EnemySprite.patrol_min_x e <= EnemySprite.center_x e
  /\ EnemySprite.center_x e <= EnemySprite.patrol_max_x e.

(** The view [self] with the horizontal velocity of its player set to
    [v]. *)
Definition with_change_x (self : GameView.t) (v : Q) : GameView.t :=
  GameView.set_player self
    (option_map (fun p => PlayerSprite.set_change_x p v)
                (GameView.player self)).

(** What the counters of a view and the catalog say about each other: the
    view is on a level of the catalog and shows its name and coin count;
    the live coins are no more than that count; score and live coins
    together are no more than the coins placed so far; every enemy is on
    patrol; the player exists. A game-over view repeats the score and the
    level name, and reports a win only from the last level with the goal
    gate open. *)
Definition coherent (w : GameView.window) : Prop :=
  let g := GameView.view w in
  (exists level,
     nth_error LEVELS (Z.to_nat (GameView.level_index g)) = Some level
     /\ GameView.level_name g = Level.name level
     /\ GameView.total_coins g = Z.of_nat (List.length (Level.coins level)))
  /\ (0 <= GameView.level_index g < Z.of_nat (List.length LEVELS))%Z
  /\ (Z.of_nat (List.length (GameView.Coins (GameView.scene g)))
      <= GameView.total_coins g)%Z
  /\ (0 <= GameView.score g)%Z
  /\ (GameView.score g
      + Z.of_nat (List.length (GameView.Coins (GameView.scene g)))
      <= coins_through (GameView.level_index g))%Z
  /\ Forall on_patrol (GameView.Enemies (GameView.scene g))
  /\ GameView.player g <> None
  /\ match w with
     | GameView.Playing _ => True
     | GameView.Over _ v =>
       GameOverView.score v = GameView.score g
       /\ GameOverView.level_name v = GameView.level_name g
       /\ (GameOverView.did_win v = true ->
           (GameView.level_index g + 1
            = Z.of_nat (List.length LEVELS))%Z
           /\ (GameView.total_coins g <= GameView.score g)%Z
           /\ (1 <= GameView.health g)%Z)
       /\ (GameOverView.did_win v = false ->
           GameView._check_lose g = Some true)
     end.

(** ** Properties *)

(** *** Python arithmetic *)

Lemma ltb_true (a b : Q) : Py.ltb a b = true <-> a < b.
Proof.
  unfold Py.ltb. rewrite negb_true_iff.
  split; intro H.
  - apply Qnot_le_lt. intro Hle.
    apply (proj2 (Qle_bool_iff b a)) in Hle.
    rewrite H in Hle. discriminate.
  - destruct (Qle_bool b a) eqn:E; [|reflexivity].
    apply (proj1 (Qle_bool_iff b a)) in E.
    exfalso. apply (Qlt_not_le _ _ H E).
Qed.

Lemma ltb_false (a b : Q) : Py.ltb a b = false <-> b <= a.
Proof.
  unfold Py.ltb. rewrite negb_false_iff. apply Qle_bool_iff.
Qed.

Lemma max_lower (a b : Q) : a <= Py.max a b.
Proof.
  unfold Py.max. destruct (Py.ltb a b) eqn:E.
  - apply ltb_true in E. lra.
  - lra.
Qed.

Lemma max_zero_sub (t d : Q) : 0 <= d -> 0 <= t -> Py.max 0.0 (t - d) <= t.
Proof.
  intros Hd Ht. unfold Py.max. destruct (Py.ltb 0.0 (t - d)) eqn:E.
  - lra.
  - assert (0.0 == 0) by reflexivity. lra.
Qed.

Lemma int_unit_interval (x : Q) :
  0 <= x -> x < 2 -> Py.int x = 0%Z \/ Py.int x = 1%Z.
Proof.
  destruct x as [n d]. unfold Py.int, Qle, Qlt. simpl. intros H0 H2.
  assert (Hn : (0 <= n)%Z) by lia.
  assert (Hq : (0 <= Z.quot n (Zpos d) < 2)%Z).
  { split.
    - apply Z.quot_pos; lia.
    - apply Z.quot_lt_upper_bound; lia. }
  lia.
Qed.

Lemma fmod_two_range (a : Q) : 0 <= Py.fmod a 2 /\ Py.fmod a 2 < 2.
Proof.
  unfold Py.fmod.
  pose proof (Qfloor_le (a / 2)) as Hlo.
  pose proof (Qlt_floor (a / 2)) as Hhi.
  rewrite inject_Z_plus in Hhi.
  assert (Ha : a == 2 * (a / 2)) by (field).
  set (f := inject_Z (Qfloor (a / 2))) in *.
  change (inject_Z 1) with 1 in Hhi.
  split; lra.
Qed.

(** *** Enemy patrol *)

Section Patrol.

Import EnemySprite.

Lemma update_bounds (e : t) :
  patrol_min_x (update e) = patrol_min_x e
  /\ patrol_max_x (update e) = patrol_max_x e.
Proof.
  unfold update.
  repeat match goal with |- context [Py.ltb ?a ?b] => destruct (Py.ltb a b) end;
    split; reflexivity.
Qed.

Lemma update_in_range (e : t) :
  patrol_min_x e <= patrol_max_x e ->
  patrol_min_x e <= center_x (update e) <= patrol_max_x e.
Proof.
  intro Hb. unfold update.
  destruct (Py.ltb _ _) eqn:E1; [cbn; lra|].
  destruct (Py.ltb (patrol_max_x _) _) eqn:E2; [cbn; lra|].
  apply ltb_false in E1, E2. cbn in *. lra.
Qed.

Lemma update_speed (e : t) :
  Qabs (change_x (update e)) == Qabs (change_x e).
Proof.
  assert (H : Qabs (change_x e * -1) == Qabs (change_x e)).
  { rewrite Qabs_Qmult. change (Qabs (-1)) with 1. ring. }
  unfold update.
  destruct (Py.ltb _ _); [exact H|].
  destruct (Py.ltb _ _); [exact H|].
  reflexivity.
Qed.

Lemma update_step (e : t) :
  patrol_min_x e <= patrol_max_x e ->
  let next := center_x e + change_x e in
  (patrol_max_x e < next ->
   center_x (update e) = patrol_max_x e
   /\ change_x (update e) == - change_x e)
  /\ (next < patrol_min_x e ->
      center_x (update e) = patrol_min_x e
      /\ change_x (update e) == - change_x e)
  /\ (patrol_min_x e <= next <= patrol_max_x e ->
      center_x (update e) = next /\ change_x (update e) = change_x e).
Proof.
  intros Hb next. unfold update.
  change (center_x (set_center_x e (center_x e + change_x e))) with next.
  change (patrol_min_x (set_center_x e (center_x e + change_x e)))
    with (patrol_min_x e).
  change (patrol_max_x (set_center_x e (center_x e + change_x e)))
    with (patrol_max_x e).
  destruct (Py.ltb next (patrol_min_x e)) eqn:E1;
    [apply ltb_true in E1|apply ltb_false in E1];
    (destruct (Py.ltb (patrol_max_x e) next) eqn:E2;
     [apply ltb_true in E2|apply ltb_false in E2]);
    repeat split; intros;
    first [ exfalso; lra | reflexivity | cbn; unfold change_x; ring ].
Qed.

Lemma iter_bounds (n : nat) (e : t) :
  patrol_min_x (Nat.iter n update e) = patrol_min_x e
  /\ patrol_max_x (Nat.iter n update e) = patrol_max_x e.
Proof.
  induction n as [|n [IH1 IH2]]; [split; reflexivity|].
  change (Nat.iter (S n) update e) with (update (Nat.iter n update e)).
  destruct (update_bounds (Nat.iter n update e)) as [H1 H2].
  split; congruence.
Qed.

End Patrol.

(** C7. An enemy whose patrol bounds are ordered and that starts within
    them stays within them after any number of [update] calls, and its
    speed keeps its magnitude.  One step past the right (left) bound puts
    the enemy on that bound with its velocity negated; any other step adds
    the velocity to the position and keeps the velocity. *)
Theorem enemy_patrol_stays_in_bounds (e : EnemySprite.t) (n : nat) :
  EnemySprite.patrol_min_x e <= EnemySprite.patrol_max_x e ->
  EnemySprite.patrol_min_x e <= EnemySprite.center_x e
    <= EnemySprite.patrol_max_x e ->
  let e' := Nat.iter n EnemySprite.update e in
  let next := EnemySprite.center_x e' + EnemySprite.change_x e' in
  EnemySprite.patrol_min_x e <= EnemySprite.center_x e'
    <= EnemySprite.patrol_max_x e
  /\ Qabs (EnemySprite.change_x e') == Qabs (EnemySprite.change_x e)
  /\ (EnemySprite.patrol_max_x e < next ->
      EnemySprite.center_x (EnemySprite.update e') = EnemySprite.patrol_max_x e
      /\ EnemySprite.change_x (EnemySprite.update e')
         == - EnemySprite.change_x e')
  /\ (next < EnemySprite.patrol_min_x e ->
      EnemySprite.center_x (EnemySprite.update e') = EnemySprite.patrol_min_x e
      /\ EnemySprite.change_x (EnemySprite.update e')
         == - EnemySprite.change_x e')
  /\ (EnemySprite.patrol_min_x e <= next <= EnemySprite.patrol_max_x e ->
      EnemySprite.center_x (EnemySprite.update e') = next
      /\ EnemySprite.change_x (EnemySprite.update e')
         = EnemySprite.change_x e').
Proof.
  intros Hb Hs e' next.
  destruct (iter_bounds n e) as [Hmin Hmax]. fold e' in Hmin, Hmax.
  assert (Hin : EnemySprite.patrol_min_x e <= EnemySprite.center_x e'
                <= EnemySprite.patrol_max_x e
                /\ Qabs (EnemySprite.change_x e')
                   == Qabs (EnemySprite.change_x e)).
  { subst e'. clear next Hmin Hmax.
    induction n as [|n IH]; [split; [exact Hs|reflexivity]|].
    change (Nat.iter (S n) EnemySprite.update e)
      with (EnemySprite.update (Nat.iter n EnemySprite.update e)).
    destruct (iter_bounds n e) as [Hmin Hmax].
    split.
    - pose proof (update_in_range (Nat.iter n EnemySprite.update e)) as H.
      rewrite Hmin, Hmax in H. exact (H Hb).
    - rewrite update_speed. apply IH. }
  destruct Hin as [Hin Hsp].
  split; [exact Hin|]. split; [exact Hsp|].
  pose proof (update_step e') as Hstep.
  rewrite Hmin, Hmax in Hstep. exact (Hstep Hb).
Qed.

(** *** Water hazard *)

Lemma water_offset_bit (time' : Q) :
  Hazard.water_offset time' = 0%Z \/ Hazard.water_offset time' = 1%Z.
Proof.
  unfold Hazard.water_offset.
  destruct (fmod_two_range (3 * (time' * 2))) as [Hlo Hhi].
  exact (int_unit_interval _ Hlo Hhi).
Qed.

Lemma water_step (h : Hazard.t) (delta_time : Q) :
  Hazard.cls h = Hazard.Water ->
  let h' := Hazard.update_animation h delta_time in
  Hazard.cls h' = Hazard.Water
  /\ Hazard.center_x h' = Hazard.center_x h
  /\ Hazard.base_y h' = Hazard.base_y h
  /\ (Hazard.center_y h' == Hazard.base_y h
      \/ Hazard.center_y h' == Hazard.base_y h + 1).
Proof.
  intros Hw h'. subst h'. unfold Hazard.update_animation. rewrite Hw.
  unfold Hazard.water_update_animation, Hazard.center_x, Hazard.center_y.
  cbn [Hazard.cls Hazard.sprite Hazard.base_y Sprite.set_center_y
       Sprite.center_x Sprite.center_y].
  repeat split; try assumption.
  destruct (water_offset_bit (Hazard.time h + delta_time)) as [E|E];
    rewrite E; [left|right].
  - change (inject_Z 0) with 0. ring.
  - change (inject_Z 1) with 1. ring.
Qed.

(** C2, as amended.  A water hazard has one position, read by drawing and
    by overlap queries alike.  After any sequence of [update_animation]
    calls its horizontal position and its base height are the initial ones,
    and its vertical position is the initial one or one unit above it. *)
Theorem water_hazard_bobs_one_unit (position : Q * Q) (w : Q)
    (delta_times : list Q) :
  let h :=
    fold_left Hazard.update_animation delta_times
              (Hazard.WaterHazard position w) in
  Hazard.center_x h = fst position
  /\ Hazard.base_y h = snd position
  /\ (Hazard.center_y h == snd position
      \/ Hazard.center_y h == snd position + 1).
Proof.
  set (h0 := Hazard.WaterHazard position w).
  assert (Inv : Hazard.cls h0 = Hazard.Water
                /\ Hazard.center_x h0 = fst position
                /\ Hazard.base_y h0 = snd position
                /\ (Hazard.center_y h0 == snd position
                    \/ Hazard.center_y h0 == snd position + 1)).
  { repeat split. left. reflexivity. }
  clearbody h0. revert h0 Inv.
  induction delta_times as [|d ds IH]; intros h0 (Hc & Hx & Hb & Hy).
  - cbn. auto.
  - cbn [fold_left]. apply IH.
    destruct (water_step h0 d Hc) as (Hc' & Hx' & Hb' & Hy').
    rewrite Hb in Hy'. repeat split; first [congruence | exact Hy'].
Qed.

(** C2, as stated, fails: a quarter of a second of animation lifts the
    position that overlap queries read from 75 to 76. *)
Lemma water_box_moves : ~ water_box_fixed Sample.pool [0.25].
Proof.
  unfold water_box_fixed. vm_compute. intro H. discriminate H.
Qed.

(** The lift is seen by the damage check: a player half a unit out of reach
    of the resting water loses a heart on a frame of a quarter second, and
    none on a frame of zero length. *)
Example bob_costs_a_heart :
  option_map (fun r => GameView.health (fst r))
    (GameView.on_update Sample.at_rest Sample.boxes Sample.above_water 0.25)
  = Some 2%Z
  /\ option_map (fun r => GameView.health (fst r))
       (GameView.on_update Sample.at_rest Sample.boxes Sample.above_water 0)
     = Some 3%Z.
Proof. split; vm_compute; reflexivity. Qed.

(** *** The stages of a frame *)

Section Frame.

Import GameView.

Variable physics_update : PhysicsEnginePlatformer -> Sprite.t -> Sprite.t.
Variable can_jump : PhysicsEnginePlatformer -> Sprite.t -> bool.
Variable check_for_collision : Sprite.t -> Sprite.t -> bool.

Lemma fold_score (l : list Sprite.t) (g : t) :
  fold_left (fun g _ => set_score g (score g + 1)%Z) l g
  = match l with
    | [] => g
    | _ :: _ => set_score g (score g + Z.of_nat (List.length l))%Z
    end.
Proof.
  revert g. induction l as [|c l IH]; intro g; [reflexivity|].
  cbn [fold_left]. rewrite IH. destruct l as [|c' l]; [reflexivity|].
  unfold set_score. cbn [score].
  f_equal. cbn [List.length]. lia.
Qed.

Lemma coins_stage (g : t) (p : PlayerSprite.t) :
  player g = Some p ->
  let g' := _check_coin_collisions check_for_collision g in
  statics g' = statics g
  /\ player g' = player g
  /\ health g' = health g
  /\ invuln_timer g' = invuln_timer g
  /\ Enemies (scene g') = Enemies (scene g)
  /\ Hazards (scene g') = Hazards (scene g)
  /\ Coins (scene g')
     = filter (fun c => negb (check_for_collision (PlayerSprite.sprite p) c))
              (Coins (scene g))
  /\ score g'
     = (score g
        + Z.of_nat
            (List.length
               (filter (check_for_collision (PlayerSprite.sprite p))
                       (Coins (scene g)))))%Z.
Proof.
  intros Hp g'. subst g'. unfold _check_coin_collisions. rewrite Hp.
  rewrite fold_score. unfold check_for_collision_with_list.
  change (fun o : Sprite.t => check_for_collision (PlayerSprite.sprite p) o)
    with (check_for_collision (PlayerSprite.sprite p)).
  destruct (filter (check_for_collision (PlayerSprite.sprite p))
                   (Coins (scene g))) as [|c l].
  - cbn. repeat split; first [reflexivity | assumption | lia].
  - cbn. repeat split; first [reflexivity | assumption].
Qed.


Ltac same_player :=
  eexists; split;
  [first [eassumption | reflexivity] | split; reflexivity].

Lemma filter_existsb {S} (f : S -> bool) (l : list S) :
  match filter f l with
  | [] => existsb f l = false
  | _ :: _ => existsb f l = true
  end.
Proof.
  induction l as [|x l IH]; [reflexivity|].
  cbn. destruct (f x); [reflexivity|]. exact IH.
Qed.

Lemma animate_stage (engine : PhysicsEnginePlatformer) (g : t) (dt : Q) :
  let a := animate physics_update engine g dt in
  statics a = statics g
  /\ score a = score g
  /\ health a = health g
  /\ invuln_timer a = invuln_timer g
  /\ Coins (scene a) = Coins (scene g)
  /\ Enemies (scene a) = map EnemySprite.update (Enemies (scene g))
  /\ Hazards (scene a)
     = map (fun h => Hazard.update_animation h dt) (Hazards (scene g))
  /\ forall p, player g = Some p ->
       exists pin pa,
         player (_handle_input g) = Some pin
         /\ PlayerSprite.center_x pin = PlayerSprite.center_x p
         /\ PlayerSprite.center_y pin = PlayerSprite.center_y p
         /\ player a = Some pa
         /\ PlayerSprite.center_x pa
            = Sprite.center_x
                (physics_update engine (PlayerSprite.sprite pin))
         /\ PlayerSprite.center_y pa
            = Sprite.center_y
                (physics_update engine (PlayerSprite.sprite pin)).
Proof.
  unfold animate, _handle_input.
  destruct (player g) as [p|] eqn:Hp; cbn;
    (repeat split; try reflexivity).
  - intros p0 E. injection E as <-. eexists. eexists.
    split; [reflexivity|]. split; [reflexivity|]. split; [reflexivity|].
    split; [reflexivity|].
    unfold PlayerSprite.update_animation.
    repeat match goal with
           | |- context [if ?b then _ else _] => destruct b
           end; split; reflexivity.
  - intros p0 E. discriminate E.
Qed.

Lemma enemy_stage (g : t) (p : PlayerSprite.t) (dt : Q) :
  player g = Some p ->
  let t' := Py.max 0.0 (invuln_timer g - dt) in
  let hit :=
    negb (Py.ltb 0 t')
    && existsb
         (fun e => check_for_collision (PlayerSprite.sprite p)
                     (EnemySprite.sprite e))
         (Enemies (scene g)) in
  let g' := _check_enemy_collisions check_for_collision g dt in
  statics g' = statics g
  /\ score g' = score g
  /\ scene g' = scene g
  /\ health g' = (if hit then health g - 1 else health g)%Z
  /\ invuln_timer g' = (if hit then 1.0 else t')
  /\ (hit = false -> player g' = Some p)
  /\ exists p', player g' = Some p'
       /\ PlayerSprite.center_x p' = PlayerSprite.center_x p
       /\ PlayerSprite.center_y p' = PlayerSprite.center_y p.
Proof.
  intros Hp t' hit g'. subst g' hit.
  unfold _check_enemy_collisions, check_for_collision_with_list.
  rewrite Hp.
  cbn [invuln_timer set_invuln_timer scene]. fold t'.
  destruct (Py.ltb 0 t') eqn:Et; cbn [negb andb].
  - cbn. repeat split; intros; first [assumption | congruence | same_player].
  - match goal with
    | |- context [filter ?f ?l] =>
        pose proof (filter_existsb f l) as Hf; destruct (filter f l)
    end; cbn beta in Hf; rewrite Hf.
    + cbn. repeat split; intros; first [assumption | congruence | same_player].
    + cbn. repeat split; intros; first [assumption | congruence | same_player].
Qed.

Lemma hazard_stage (g : t) (p : PlayerSprite.t) (dt : Q) :
  player g = Some p ->
  let hit :=
    negb (Py.ltb 0 (invuln_timer g))
    && existsb
         (fun h => check_for_collision (PlayerSprite.sprite p)
                     (Hazard.sprite h))
         (Hazards (scene g)) in
  let g' := _check_hazard_collisions check_for_collision g dt in
  statics g' = statics g
  /\ score g' = score g
  /\ scene g' = scene g
  /\ health g' = (if hit then health g - 1 else health g)%Z
  /\ invuln_timer g' = (if hit then 1.0 else invuln_timer g)
  /\ exists p', player g' = Some p'
       /\ PlayerSprite.center_x p' = PlayerSprite.center_x p
       /\ PlayerSprite.center_y p' = PlayerSprite.center_y p.
Proof.
  intros Hp hit g'. subst g' hit.
  unfold _check_hazard_collisions, check_for_collision_with_list.
  rewrite Hp.
  destruct (Py.ltb 0 (invuln_timer g)) eqn:Et; cbn [negb andb].
  - repeat split; intros; first [assumption | congruence | same_player].
  - match goal with
    | |- context [filter ?f ?l] =>
        pose proof (filter_existsb f l) as Hf; destruct (filter f l)
    end; cbn beta in Hf; rewrite Hf.
    + repeat split; intros; first [assumption | congruence | same_player].
    + cbn. repeat split; intros; first [assumption | congruence | same_player].
Qed.

Lemma simulate_summary (engine : PhysicsEnginePlatformer) (g : t)
    (p : PlayerSprite.t) (dt : Q) :
  player g = Some p ->
  let a := animate physics_update engine g dt in
  let s := simulate physics_update check_for_collision engine g dt in
  let t' := Py.max 0.0 (invuln_timer g - dt) in
  exists pa ps,
    player a = Some pa
    /\ player s = Some ps
    /\ PlayerSprite.center_x ps = PlayerSprite.center_x pa
    /\ PlayerSprite.center_y ps = PlayerSprite.center_y pa
    /\ statics s = statics g
    /\ score s
       = (score g
          + coins_under check_for_collision (PlayerSprite.sprite pa) a)%Z
    /\ Coins (scene s)
       = filter (fun c => negb (check_for_collision (PlayerSprite.sprite pa) c))
                (Coins (scene g))
    /\ let hit :=
         negb (Py.ltb 0 t')
         && harm_under check_for_collision (PlayerSprite.sprite pa) a in
       health s = (if hit then health g - 1 else health g)%Z
       /\ invuln_timer s = (if hit then 1.0 else t').
Proof.
  intros Hp a s t'. subst s. unfold simulate. fold a.
  destruct (animate_stage engine g dt)
    as (Ast & Asc & Ahe & Ati & Aco & Aen & Aha & Apl).
  fold a in Ast, Asc, Ahe, Ati, Aco, Aen, Aha, Apl.
  destruct (Apl p Hp) as (pin & pa & _ & _ & _ & Hpa & _).
  destruct (coins_stage a pa Hpa)
    as (Cst & Cpl & Che & Cti & Cen & Cha & Cco & Csc).
  set (c := _check_coin_collisions check_for_collision a) in *.
  assert (Hpc : player c = Some pa) by congruence.
  destruct (enemy_stage c pa dt Hpc)
    as (Est & Esc & Escn & Ehe & Eti & Esame & pe & Hpe & Ex & Ey).
  set (e := _check_enemy_collisions check_for_collision c dt) in *.
  destruct (hazard_stage e pe dt Hpe)
    as (Hst & Hsc & Hscn & Hhe & Hti & ps & Hps & Hx & Hy).
  set (s := _check_hazard_collisions check_for_collision e dt) in *.
  clearbody s e c.
  assert (Hdam :
            let hit :=
              negb (Py.ltb 0 t')
              && harm_under check_for_collision (PlayerSprite.sprite pa) a in
            health s = (if hit then health g - 1 else health g)%Z
            /\ invuln_timer s = (if hit then 1.0 else t')).
  { intro hit. subst hit. unfold harm_under.
    rewrite Cti, Ati in Ehe, Eti, Esame. fold t' in Ehe, Eti, Esame.
    rewrite Cen, Che, Ahe in Ehe. rewrite Cen in Eti, Esame.
    rewrite Hhe, Hti, Escn, Cha.
    destruct (Py.ltb 0 t') eqn:Et; cbn [negb andb] in *.
    - rewrite Eti, Et. cbn [negb andb]. split; congruence.
    - destruct (existsb _ (Enemies (scene a))) eqn:Een; cbn [orb].
      + rewrite Eti. change (Py.ltb 0 1.0) with true.
        cbn [negb andb]. split; congruence.
      + rewrite Eti, Et. cbn [negb andb].
        assert (pe = pa) by (specialize (Esame eq_refl); congruence).
        subst pe.
        destruct (existsb _ (Hazards (scene a))); split; congruence. }
  exists pa, ps.
  repeat match goal with |- _ /\ _ => split end;
    try congruence; try apply Hdam.
  rewrite Hsc, Esc, Csc, Asc. reflexivity.
Qed.

Lemma level_index_set (g : t) (i : Z) :
  level_index (set_level_index g i) = i.
Proof. reflexivity. Qed.

(** The outcomes of the checks that end a frame. *)
Lemma resolve_cases (g g' : t) (o : option GameOverView.t) :
  resolve check_for_collision g = Some (g', o) ->
  (_check_lose g = Some true /\ g' = g
   /\ o = Some (GameOverView.mk false (score g) (level_name g)))
  \/ (_check_lose g = Some false
      /\ _check_goal check_for_collision g = false /\ g' = g /\ o = None)
  \/ (_check_lose g = Some false
      /\ _check_goal check_for_collision g = true
      /\ (level_index g + 1 < Z.of_nat (List.length LEVELS))%Z
      /\ setup (set_level_index g (level_index g + 1)) (level_index g + 1)
         = Some g'
      /\ o = None)
  \/ (_check_lose g = Some false
      /\ _check_goal check_for_collision g = true
      /\ (Z.of_nat (List.length LEVELS) <= level_index g + 1)%Z
      /\ g' = g
      /\ o = Some (GameOverView.mk true (score g) (level_name g))).
Proof.
  unfold resolve.
  destruct (_check_lose g) as [[|]|]; [| |discriminate].
  - intro E. injection E as <- <-. left. auto.
  - destruct (_check_goal check_for_collision g).
    + destruct (level_index g + 1 <? Z.of_nat (List.length LEVELS))%Z eqn:El.
      * apply Z.ltb_lt in El.
        rewrite level_index_set.
        destruct (setup _ _) as [g1|] eqn:Es; [|discriminate].
        intro E. injection E as <- <-. right. right. left. auto.
      * apply Z.ltb_ge in El.
        intro E. injection E as <- <-. right. right. right. auto.
    + intro E. injection E as <- <-. right. left. auto.
Qed.

Lemma setup_fields (g g' : t) (i : Z) :
  setup g i = Some g' ->
  exists level p engine,
    Py.index LEVELS i = Some level
    /\ level_index g' = i
    /\ level_name g' = Level.name level
    /\ total_coins g' = Z.of_nat (List.length (Level.coins level))
    /\ List.length (Coins (scene g')) = List.length (Level.coins level)
    /\ invuln_timer g' = 0.0
    /\ (i = 0%Z -> score g' = 0%Z /\ health g' = PLAYER_MAX_HEALTH)
    /\ (i <> 0%Z -> score g' = score g /\ health g' = health g)
    /\ player g' = Some p
    /\ PlayerSprite.center_x p = fst (Level.player_start level)
    /\ PlayerSprite.center_y p = snd (Level.player_start level)
    /\ physics_engine g' = Some engine.
Proof.
  unfold setup.
  destruct (Py.index LEVELS i) as [level|]; [|discriminate].
  intro E. injection E as <-.
  eexists level, _, _.
  cbn [level_index level_name total_coins scene Coins invuln_timer score
       health player physics_engine].
  rewrite length_map.
  destruct (Z.eqb_spec i 0) as [Hz|Hz]; repeat split; congruence.
Qed.

Lemma levels_length : Z.of_nat (List.length LEVELS) = 3%Z.
Proof. reflexivity. Qed.

Lemma index_in_range {A} (xs : list A) (i : Z) :
  (0 <= i < Z.of_nat (List.length xs))%Z ->
  exists x, Py.index xs i = Some x
            /\ nth_error xs (Z.to_nat i) = Some x.
Proof.
  intros [H0 H1]. unfold Py.index.
  destruct (0 <=? i)%Z eqn:E; [|apply Z.leb_gt in E; lia].
  destruct (nth_error xs (Z.to_nat i)) as [x|] eqn:En; [eauto|].
  apply nth_error_None in En. lia.
Qed.

Lemma setup_total (g : t) (i : Z) :
  (0 <= i < Z.of_nat (List.length LEVELS))%Z ->
  exists g', setup g i = Some g'.
Proof.
  intro Hi. destruct (index_in_range LEVELS i Hi) as (level & E & _).
  unfold setup. rewrite E. eauto.
Qed.

Lemma on_update_frame (g : t) (engine : PhysicsEnginePlatformer)
    (p : PlayerSprite.t) (dt : Q) :
  physics_engine g = Some engine ->
  player g = Some p ->
  on_update physics_update check_for_collision g dt
  = resolve check_for_collision
      (simulate physics_update check_for_collision engine g dt).
Proof.
  intros He Hp. unfold on_update. rewrite He, Hp. reflexivity.
Qed.

Lemma statics_fields (g g' : t) :
  statics g' = statics g ->
  physics_engine g' = physics_engine g
  /\ level_index g' = level_index g
  /\ total_coins g' = total_coins g
  /\ level_name g' = level_name g
  /\ Goal (scene g') = Goal (scene g).
Proof.
  unfold statics. intro E. injection E. intros.
  repeat split; assumption.
Qed.

Lemma check_lose_cases (g : t) (p : PlayerSprite.t) :
  player g = Some p ->
  ((health g <= 0)%Z -> _check_lose g = Some true)
  /\ (forall level,
        (0 < health g)%Z ->
        Py.index LEVELS (level_index g) = Some level ->
        _check_lose g
        = Some (Py.ltb (PlayerSprite.center_y p) (kill_plane level))).
Proof.
  intro Hp. unfold _check_lose. rewrite Hp. split.
  - intro H. apply Z.leb_le in H. rewrite H. reflexivity.
  - intros level H E. apply Z.leb_gt in H. rewrite H, E. reflexivity.
Qed.

Lemma check_lose_false (g : t) :
  _check_lose g = Some false -> (0 < health g)%Z.
Proof.
  unfold _check_lose. destruct (player g); [|discriminate].
  destruct (health g <=? 0)%Z eqn:E; [discriminate|].
  intros _. apply Z.leb_gt in E. exact E.
Qed.

Lemma key_press_fields (g : t) (k : key) :
  let g' := on_key_press can_jump g k in
  health g' = health g /\ level_index g' = level_index g
  /\ invuln_timer g' = invuln_timer g /\ score g' = score g
  /\ physics_engine g' = physics_engine g
  /\ (player g <> None -> player g' <> None).
Proof.
  unfold on_key_press.
  destruct (player g) as [p|] eqn:Hp,
           (physics_engine g) as [en|] eqn:He, k; cbn;
    try (destruct (can_jump en (PlayerSprite.sprite p)); cbn);
    repeat split; congruence.
Qed.

Lemma key_release_fields (g : t) (k : key) :
  let g' := on_key_release g k in
  health g' = health g /\ level_index g' = level_index g
  /\ invuln_timer g' = invuln_timer g /\ score g' = score g
  /\ physics_engine g' = physics_engine g
  /\ player g' = player g.
Proof.
  unfold on_key_release. destruct k; cbn; repeat split; reflexivity.
Qed.

Local Abbreviation on_update' := (on_update physics_update check_for_collision).
Local Abbreviation simulate' := (simulate physics_update check_for_collision).
Local Abbreviation dispatch' :=
  (dispatch physics_update can_jump check_for_collision).
Local Abbreviation reachable' :=
  (reachable physics_update can_jump check_for_collision).
Local Abbreviation run' :=
  (run physics_update can_jump check_for_collision).

(** What one frame does to the counters, whatever the checks decide. *)
Lemma frame_counters (g : t) (engine : PhysicsEnginePlatformer)
    (p : PlayerSprite.t) (dt : Q) :
  player g = Some p ->
  let s := simulate' engine g dt in
  let t' := Py.max 0.0 (invuln_timer g - dt) in
  statics s = statics g
  /\ player s <> None
  /\ (score g <= score s)%Z
  /\ 0 <= invuln_timer s
  /\ ((health s = health g /\ invuln_timer s = t')
      \/ (health s = (health g - 1)%Z /\ invuln_timer s = 1.0
          /\ t' <= 0)).
Proof.
  intros Hp s t'.
  destruct (simulate_summary engine g p dt Hp)
    as (pa & ps & _ & Hps & _ & _ & Hst & Hsc & _ & Hhe & Hti).
  fold s in Hps, Hst, Hsc, Hhe, Hti. fold t' in Hhe, Hti.
  assert (Ht' : 0 <= t').
  { pose proof (max_lower 0.0 (invuln_timer g - dt)) as H.
    fold t' in H. assert (0.0 == 0) by reflexivity. lra. }
  split; [exact Hst|]. split; [congruence|]. split.
  { rewrite Hsc. unfold coins_under. lia. }
  destruct (Py.ltb 0 t') eqn:Et; cbn [negb andb] in Hhe, Hti.
  - split; [rewrite Hti; lra|]. left. split; assumption.
  - destruct (harm_under _ _ _).
    + split; [rewrite Hti; unfold Qle; cbn; lia|].
      right. apply ltb_false in Et. repeat split; assumption.
    + split; [rewrite Hti; lra|]. left. split; assumption.
Qed.

Lemma advance_fields (s g' : t) :
  (0 <= level_index s)%Z ->
  setup (set_level_index s (level_index s + 1)) (level_index s + 1)
  = Some g' ->
  score g' = score s
  /\ health g' = health s
  /\ level_index g' = (level_index s + 1)%Z
  /\ invuln_timer g' = 0.0
  /\ player g' <> None
  /\ physics_engine g' <> None.
Proof.
  intros Hli Hset.
  destruct (setup_fields _ _ _ Hset)
    as (level & p' & en' & _ & Gli & _ & _ & _ & Gti & _ & Gkeep
        & Gpl & _ & _ & Gen).
  destruct Gkeep as [Gsc Ghe]; [lia|].
  assert (Es : score (set_level_index s (level_index s + 1)) = score s)
    by reflexivity.
  assert (Eh : health (set_level_index s (level_index s + 1)) = health s)
    by reflexivity.
  rewrite Es in Gsc. rewrite Eh in Ghe.
  repeat split; try assumption; congruence.
Qed.

Lemma resolve_sound (s g' : t) (o : option GameOverView.t) :
  (0 <= health s <= PLAYER_MAX_HEALTH)%Z ->
  (0 <= level_index s < 3)%Z ->
  0 <= invuln_timer s ->
  (0 <= score s)%Z ->
  player s <> None ->
  physics_engine s <> None ->
  resolve check_for_collision s = Some (g', o) ->
  sound (match o with Some v => Over g' v | None => Playing g' end).
Proof.
  intros Hh Hl Ht Hs Hp He R.
  destruct (resolve_cases s g' o R)
    as [(Hlose & -> & ->)|[(Hlose & Hgoal & -> & ->)
        |[(Hlose & Hgoal & Hlt & Hset & ->)
         |(Hlose & Hgoal & Hge & -> & ->)]]].
  - cbn. repeat split; try lia; try assumption.
  - apply check_lose_false in Hlose.
    unfold sound. rewrite levels_length.
    repeat split; try lia; try assumption.
  - apply check_lose_false in Hlose.
    destruct (advance_fields s g' ltac:(lia) Hset)
      as (Gsc & Ghe & Gli & Gti & Gpl & Gen).
    rewrite levels_length in Hlt.
    unfold sound. rewrite Gli, Gti, Gsc, Ghe, levels_length.
    repeat split; try lia; try assumption. discriminate.
  - apply check_lose_false in Hlose.
    cbn. repeat split; try lia; try assumption.
Qed.

Lemma sound_step (w w' : window) (e : event) :
  sound w -> dispatch' w e = Some w' -> sound w'.
Proof.
  destruct w as [g|g v]; cbn [dispatch];
    [|intros H E; injection E as <-; exact H].
  intros (Hh & Hl & Ht & Hs & Hp & He).
  rewrite levels_length in Hl.
  destruct e as [dt|k|k].
  - destruct (player g) as [p|] eqn:Ep; [|congruence].
    destruct (physics_engine g) as [en|] eqn:Ee; [|congruence].
    rewrite (on_update_frame g en p dt Ee Ep).
    destruct (frame_counters g en p dt Ep) as (Fst & Fpl & Fsc & Fti & Fhe).
    destruct (statics_fields _ _ Fst) as (Fen & Fli & _).
    assert (Hhs : (0 <= health (simulate' en g dt) <= PLAYER_MAX_HEALTH)%Z)
      by (destruct Fhe as [[-> _]|[-> _]]; lia).
    pose proof (resolve_sound (simulate' en g dt)) as Hr.
    destruct (resolve check_for_collision (simulate' en g dt))
      as [[g' o]|]; [|discriminate].
    specialize (Hr g' o Hhs).
    rewrite Fli, Fen, Ee in Hr.
    specialize (Hr Hl Fti ltac:(lia) Fpl ltac:(discriminate) eq_refl).
    destruct o as [v|]; intro E; injection E as <-; exact Hr.
  - destruct (key_press_fields g k) as (E1 & E2 & E3 & E4 & E5 & E6).
    intro E. injection E as <-. unfold sound.
    rewrite E1, E2, E3, E4, E5, levels_length.
    repeat split; try lia; auto.
  - destruct (key_release_fields g k) as (E1 & E2 & E3 & E4 & E5 & E6).
    intro E. injection E as <-. unfold sound.
    rewrite E1, E2, E3, E4, E5, E6, levels_length.
    repeat split; try lia; auto.
Qed.

Lemma reachable_sound (w : window) : reachable' w -> sound w.
Proof.
  induction 1 as [gender g Hs|w e w' _ IH Hd].
  - destruct (setup_fields _ _ _ Hs)
      as (level & p & en & _ & Gli & _ & _ & _ & Gti & Gzero & _
          & Gpl & _ & _ & Gen).
    destruct (Gzero eq_refl) as [Gsc Ghe].
    unfold sound. rewrite Gli, Gti, Gsc, Ghe, Gpl, Gen.
    repeat split; try (cbn; lia); try discriminate.
  - exact (sound_step w w' e IH Hd).
Qed.

Lemma resolve_total (s : t) :
  (0 <= level_index s < 3)%Z ->
  exists g' o, resolve check_for_collision s = Some (g', o).
Proof.
  intro Hl. unfold resolve, _check_lose.
  destruct (player s) as [ps|]; [|eauto].
  destruct (health s <=? 0)%Z; [eauto|].
  destruct (index_in_range LEVELS (level_index s)) as (level & -> & _);
    [rewrite levels_length; exact Hl|].
  destruct (Py.ltb _ _); [eauto|].
  destruct (_check_goal _ _); [|eauto].
  rewrite levels_length.
  destruct (level_index s + 1 <? 3)%Z eqn:El; [|eauto].
  apply Z.ltb_lt in El. rewrite level_index_set.
  destruct (setup_total (set_level_index s (level_index s + 1))
                        (level_index s + 1)) as (g' & ->);
    [rewrite levels_length; lia|eauto].
Qed.

(** In a sound playing state a frame never raises. *)
Lemma on_update_total (g : t) (dt : Q) :
  sound (Playing g) -> exists g' o, on_update' g dt = Some (g', o).
Proof.
  intros (Hh & Hl & Ht & Hs & Hp & He).
  rewrite levels_length in Hl.
  destruct (player g) as [p|] eqn:Ep; [|congruence].
  destruct (physics_engine g) as [en|] eqn:Ee; [|congruence].
  rewrite (on_update_frame g en p dt Ee Ep).
  destruct (frame_counters g en p dt Ep) as (Fst & _).
  destruct (statics_fields _ _ Fst) as (_ & Fli & _).
  apply resolve_total. rewrite Fli. exact Hl.
Qed.

Lemma resolve_lose (s : t) :
  ((health s <= 0)%Z
   \/ exists level ps,
        Py.index LEVELS (level_index s) = Some level
        /\ player s = Some ps
        /\ PlayerSprite.center_y ps < kill_plane level) ->
  resolve check_for_collision s
  = Some (s, Some (GameOverView.mk false (score s) (level_name s))).
Proof.
  intro Hlose.
  assert (E : _check_lose s = Some true).
  { unfold _check_lose.
    destruct (player s) as [ps|] eqn:Eps; [|reflexivity].
    destruct (check_lose_cases s ps Eps) as [Hdead Hfall].
    unfold _check_lose in Hdead, Hfall. rewrite Eps in Hdead, Hfall.
    destruct (Z_le_gt_dec (health s) 0) as [Hle|Hgt]; [auto|].
    destruct Hlose as [Hle|(level & ps' & Ei & Eps' & Hy)]; [auto|].
    rewrite (Hfall level) by (assumption || lia).
    assert (ps' = ps) by congruence. subst ps'.
    f_equal. apply ltb_true. exact Hy. }
  unfold resolve. rewrite E. reflexivity.
Qed.

Lemma resolve_transitions (s : t) :
  _check_lose s = Some false ->
  (0 <= level_index s)%Z ->
  (_check_goal check_for_collision s = true
   <-> exists ps goal rest,
         player s = Some ps
         /\ Goal (scene s) = goal :: rest
         /\ check_for_collision (PlayerSprite.sprite ps) goal = true
         /\ (total_coins s <= score s)%Z)
  /\ (_check_goal check_for_collision s = false ->
      resolve check_for_collision s = Some (s, None))
  /\ (_check_goal check_for_collision s = true ->
      (level_index s + 1 < Z.of_nat (List.length LEVELS))%Z ->
      exists s',
        resolve check_for_collision s = Some (s', None)
        /\ setup (set_level_index s (level_index s + 1))
                 (level_index s + 1) = Some s'
        /\ level_index s' = (level_index s + 1)%Z
        /\ score s' = score s
        /\ health s' = health s)
  /\ (_check_goal check_for_collision s = true ->
      (Z.of_nat (List.length LEVELS) <= level_index s + 1)%Z ->
      resolve check_for_collision s
      = Some (s, Some (GameOverView.mk true (score s) (level_name s)))).
Proof.
  intros Hlose Hli.
  split; [|unfold resolve; rewrite Hlose; repeat split].
  - unfold _check_goal. split.
    + destruct (player s) as [ps|]; [|discriminate].
      destruct (Goal (scene s)) as [|goal rest]; [discriminate|].
      destruct (check_for_collision _ goal) eqn:Ec; [|discriminate].
      intro H. apply Z.leb_le in H. exists ps, goal, rest. auto.
    + intros (ps & goal & rest & -> & -> & -> & H).
      apply Z.leb_le. exact H.
  - intros ->. reflexivity.
  - intros -> Hlt.
    destruct (setup_total (set_level_index s (level_index s + 1))
                          (level_index s + 1)) as (s' & Es); [lia|].
    apply Z.ltb_lt in Hlt. rewrite Hlt.
    rewrite level_index_set, Es.
    exists s'. split; [reflexivity|]. split; [reflexivity|].
    destruct (advance_fields s s' Hli Es) as (Gsc & Ghe & Gli & _).
    split; [exact Gli|]. split; [exact Gsc|exact Ghe].
  - intros -> Hge. apply Z.ltb_ge in Hge. rewrite Hge. reflexivity.
Qed.

(** *** The order of the checks *)

(** C1. In a frame whose state at the checks meets a lose condition
    (no health left, or the player below the kill plane of the level)
    together with the clear condition, [on_update] shows the game-over
    view of a lost game: the lose check runs first and returns. *)
Theorem loss_takes_priority (g : t) (engine : PhysicsEnginePlatformer)
    (p : PlayerSprite.t) (dt : Q) :
  physics_engine g = Some engine ->
  player g = Some p ->
  let s := simulate' engine g dt in
  ((health s <= 0)%Z
   \/ exists level ps,
        Py.index LEVELS (level_index s) = Some level
        /\ player s = Some ps
        /\ PlayerSprite.center_y ps < kill_plane level) ->
  _check_goal check_for_collision s = true ->
  on_update' g dt
  = Some (s, Some (GameOverView.mk false (score s) (level_name s))).
Proof.
  intros He Hp s Hlose _.
  rewrite (on_update_frame g engine p dt He Hp).
  apply resolve_lose.
  destruct Hlose as [Hle|(level & ps & Ei & Eps & Hy)]; [left; exact Hle|].
  right. exists level, ps. auto.
Qed.

(** C3. The clear condition is: the player overlaps the goal marker and
    the score is at least the level's coin count.  In a frame that the
    lose check lets through, on a level of the catalog: without the clear
    condition the session stays as it is; with it and a further level in
    the catalog, [setup] runs for the next index and score and health are
    carried over; with it on the last level, the game-over view of a won
    game is shown. *)
Theorem level_clear_transitions (g : t) (engine : PhysicsEnginePlatformer)
    (p : PlayerSprite.t) (dt : Q) :
  physics_engine g = Some engine ->
  player g = Some p ->
  let s := simulate' engine g dt in
  _check_lose s = Some false ->
  (0 <= level_index s)%Z ->
  (_check_goal check_for_collision s = true
   <-> exists ps goal rest,
         player s = Some ps
         /\ Goal (scene s) = goal :: rest
         /\ check_for_collision (PlayerSprite.sprite ps) goal = true
         /\ (total_coins s <= score s)%Z)
  /\ (_check_goal check_for_collision s = false ->
      on_update' g dt = Some (s, None))
  /\ (_check_goal check_for_collision s = true ->
      (level_index s + 1 < Z.of_nat (List.length LEVELS))%Z ->
      exists s',
        on_update' g dt = Some (s', None)
        /\ setup (set_level_index s (level_index s + 1))
                 (level_index s + 1) = Some s'
        /\ level_index s' = (level_index s + 1)%Z
        /\ score s' = score s
        /\ health s' = health s)
  /\ (_check_goal check_for_collision s = true ->
      (Z.of_nat (List.length LEVELS) <= level_index s + 1)%Z ->
      on_update' g dt
      = Some (s, Some (GameOverView.mk true (score s) (level_name s)))).
Proof.
  intros He Hp s Hlose Hli.
  rewrite (on_update_frame g engine p dt He Hp).
  exact (resolve_transitions (simulate' engine g dt) Hlose Hli).
Qed.

(** *** Level setup *)

(** C4. For a level index of the catalog, [setup] succeeds, puts the
    player on the start position of that level and sets the timer to
    zero.  For index 0 the score becomes 0 and the health the maximum;
    for a later index the score and the health are the ones before the
    call. *)
Theorem setup_resets_on_first_level_only (g : t) (i : Z) :
  (0 <= i < Z.of_nat (List.length LEVELS))%Z ->
  exists level g' p,
    nth_error LEVELS (Z.to_nat i) = Some level
    /\ setup g i = Some g'
    /\ level_index g' = i
    /\ player g' = Some p
    /\ (PlayerSprite.center_x p, PlayerSprite.center_y p)
       = Level.player_start level
    /\ invuln_timer g' == 0
    /\ (i = 0%Z -> score g' = 0%Z /\ health g' = PLAYER_MAX_HEALTH)
    /\ ((0 < i)%Z -> score g' = score g /\ health g' = health g).
Proof.
  intro Hi.
  destruct (index_in_range LEVELS i Hi) as (level & Ei & En).
  destruct (setup_total g i Hi) as (g' & Es).
  destruct (setup_fields _ _ _ Es)
    as (level' & p & en & Ei' & Gli & _ & _ & _ & Gti & Gzero & Gkeep
        & Gpl & Gx & Gy & _).
  assert (level' = level) by congruence. subst level'.
  exists level, g', p.
  repeat split; try assumption.
  - rewrite Gx, Gy. destruct (Level.player_start level). reflexivity.
  - rewrite Gti. reflexivity.
  - apply Gzero. assumption.
  - apply Gzero. assumption.
  - apply Gkeep. lia.
  - apply Gkeep. lia.
Qed.

(** *** Damage and the invulnerability timer *)

(** C5.  In every reachable state the timer is not negative.  A frame of
    non-negative length leaves it non-negative, lets it grow only through
    damage, which costs one heart and sets it to one second, and never
    raises it when the health is unchanged.  The enemy check stores the
    timer less the frame length, floored at zero, before it looks for
    contact, and deals no damage while the stored value is positive; the
    hazard check returns at once while the timer is positive. *)
Theorem invuln_timer_counts_down (w : window) :
  reachable' w ->
  0 <= invuln_timer (view w)
  /\ (forall g dt g' o,
        w = Playing g -> 0 <= dt ->
        on_update' g dt = Some (g', o) ->
        0 <= invuln_timer g'
        /\ (health g' = health g -> invuln_timer g' <= invuln_timer g)
        /\ (invuln_timer g < invuln_timer g' ->
            health g' = (health g - 1)%Z /\ invuln_timer g' == 1))
  /\ (forall g dt,
        player g <> None ->
        let t' := Py.max 0.0 (invuln_timer g - dt) in
        let g' := _check_enemy_collisions check_for_collision g dt in
        (0 < t' -> g' = set_invuln_timer g t')
        /\ ((health g' = health g /\ invuln_timer g' = t')
            \/ (health g' = (health g - 1)%Z /\ invuln_timer g' = 1.0
                /\ t' <= 0)))
  /\ (forall g dt,
        0 < invuln_timer g ->
        _check_hazard_collisions check_for_collision g dt = g).
Proof.
  intro Hr. pose proof (reachable_sound w Hr) as Hs.
  split; [|split; [|split]].
  - destruct w as [g|g v]; cbn in *; tauto.
  - intros g dt g' o -> Hdt Hu.
    destruct Hs as (_ & _ & Ht & _ & Hp & He).
    destruct (player g) as [p|] eqn:Ep; [|congruence].
    destruct (physics_engine g) as [en|] eqn:Ee; [|congruence].
    rewrite (on_update_frame g en p dt Ee Ep) in Hu.
    destruct (frame_counters g en p dt Ep) as (_ & _ & _ & Fti & Fhe).
    pose proof (max_zero_sub (invuln_timer g) dt Hdt Ht) as Hmax.
    remember (simulate' en g dt) as s eqn:Hs.
    remember (Py.max 0.0 (invuln_timer g - dt)) as t' eqn:Ht'.
    clear Hs Ht'.
    assert (Hone : 1.0 == 1) by reflexivity.
    assert (Hzero : 0.0 == 0) by reflexivity.
    destruct (resolve_cases s g' o Hu)
      as [(_ & -> & _)|[(_ & _ & -> & _)
          |[(_ & _ & _ & Hset & _)|(_ & _ & _ & -> & _)]]].
    1,2,4: split; [exact Fti|];
      destruct Fhe as [[Eh Et]|(Eh & Et & Hle)]; rewrite Et;
      (split; [intro; first [lra | lia]|]);
      intro; first [lra | split; [exact Eh|exact Hone]].
    destruct (setup_fields _ _ _ Hset)
      as (_ & _ & _ & _ & _ & _ & _ & _ & Gti & _).
    rewrite Gti. repeat split; intros; lra.
  - intros g dt Hp t' g'.
    destruct (player g) as [p|] eqn:Ep; [|congruence].
    destruct (enemy_stage g p dt Ep)
      as (_ & _ & _ & Ehe & Eti & _).
    fold t' g' in Ehe, Eti. split.
    + intro Hpos. apply ltb_true in Hpos. subst g'.
      unfold _check_enemy_collisions. rewrite Ep.
      cbn [invuln_timer set_invuln_timer]. fold t'. rewrite Hpos.
      reflexivity.
    + destruct (Py.ltb 0 t') eqn:Et; cbn [negb andb] in Ehe, Eti;
        [left; split; assumption|].
      destruct (existsb _ _); [right|left; split; assumption].
      apply ltb_false in Et. repeat split; assumption.
  - intros g dt Hpos. apply ltb_true in Hpos.
    unfold _check_hazard_collisions. rewrite Hpos.
    destruct (player g); reflexivity.
Qed.

(** C6.  In every reachable state the health lies between zero and the
    maximum, and it is at least one while the game view is shown.  A
    frame from such a state never raises; it leaves the health at zero
    or above, and when it leaves it at zero the lose check of that frame
    fires and the game-over view of a lost game is shown. *)
Theorem health_stays_in_range (w : window) :
  reachable' w ->
  (0 <= health (view w) <= PLAYER_MAX_HEALTH)%Z
  /\ (forall g, w = Playing g -> (1 <= health g)%Z)
  /\ (forall g dt,
        w = Playing g ->
        exists g' o,
          on_update' g dt = Some (g', o)
          /\ (0 <= health g' <= PLAYER_MAX_HEALTH)%Z
          /\ (health g' = 0%Z ->
              _check_lose g' = Some true
              /\ o = Some (GameOverView.mk false (score g')
                                           (level_name g')))).
Proof.
  intro Hr. pose proof (reachable_sound w Hr) as Hs.
  split; [|split].
  - destruct w as [g|g v]; cbn in *; lia.
  - intros g ->. cbn in Hs. lia.
  - intros g dt ->.
    destruct (on_update_total g dt Hs) as (g' & o & Hu).
    exists g', o. split; [exact Hu|].
    assert (Hs' : sound (match o with
                         | Some v => Over g' v
                         | None => Playing g'
                         end)).
    { apply (sound_step (Playing g) _ (Update dt) Hs).
      cbn [dispatch]. rewrite Hu. destruct o; reflexivity. }
    split; [destruct o; cbn in Hs'; lia|].
    intro Hz.
    destruct Hs as (_ & _ & _ & _ & Hp & He).
    destruct (player g) as [p|] eqn:Ep; [|congruence].
    destruct (physics_engine g) as [en|] eqn:Ee; [|congruence].
    rewrite (on_update_frame g en p dt Ee Ep) in Hu.
    remember (simulate' en g dt) as s eqn:Hs. clear Hs.
    destruct (resolve_cases s g' o Hu)
      as [(Hlose & -> & ->)|[(Hlose & _ & -> & _)
          |[(Hlose & _ & _ & Hset & ->)|(Hlose & _ & _ & -> & _)]]];
      try (apply check_lose_false in Hlose; cbn in Hs'; lia).
    split; [exact Hlose|reflexivity].
Qed.

(** *** Coins *)

Lemma filter_split_length {S} (f : S -> bool) (l : list S) :
  (List.length (filter f l)
   + List.length (filter (fun x => negb (f x)) l))%nat
  = List.length l.
Proof.
  induction l as [|x l IH]; [reflexivity|].
  cbn. destruct (f x); cbn; lia.
Qed.

Lemma filter_all {S} (l : list S) : filter (fun _ => true) l = l.
Proof.
  induction l as [|x l IH]; [reflexivity|]. cbn. rewrite IH. reflexivity.
Qed.

Lemma filter_twice {S} (f : S -> bool) (l : list S) :
  filter f (filter f l) = filter f l.
Proof.
  induction l as [|x l IH]; [reflexivity|].
  cbn. destruct (f x) eqn:E; [|exact IH].
  cbn. rewrite E, IH. reflexivity.
Qed.

Lemma filter_none {S} (f : S -> bool) (l : list S) :
  filter f (filter (fun x => negb (f x)) l) = [].
Proof.
  induction l as [|x l IH]; [reflexivity|].
  cbn. destruct (f x) eqn:E; cbn; [exact IH|]. rewrite E. exact IH.
Qed.

Lemma filter_both {S} (f k : S -> bool) (l : list S) :
  filter k (filter f l) = filter (fun x => f x && k x) l.
Proof.
  induction l as [|x l IH]; [reflexivity|].
  cbn. destruct (f x); cbn; [destruct (k x); rewrite IH|]; auto.
Qed.

(** The live coins and the score over one frame that stays on the level. *)
Lemma frame_coins (g g' : t) (o : option GameOverView.t) (dt : Q) :
  on_update' g dt = Some (g', o) ->
  level_index g' = level_index g ->
  (exists keep, Coins (scene g') = filter keep (Coins (scene g)))
  /\ (score g' + Z.of_nat (List.length (Coins (scene g')))
      = score g + Z.of_nat (List.length (Coins (scene g))))%Z.
Proof.
  intros Hu Hli.
  assert (Hsame : g' = g ->
            (exists keep, Coins (scene g') = filter keep (Coins (scene g)))
            /\ (score g' + Z.of_nat (List.length (Coins (scene g')))
                = score g + Z.of_nat (List.length (Coins (scene g))))%Z).
  { intros ->. split; [|reflexivity].
    exists (fun _ => true). symmetry. apply filter_all. }
  unfold on_update in Hu.
  destruct (physics_engine g) as [en|] eqn:Ee;
    [|injection Hu as <- <-; auto].
  destruct (player g) as [p|] eqn:Hp; [|injection Hu as <- <-; auto].
  clear Hsame.
  destruct (simulate_summary en g p dt Hp)
    as (pa & ps & _ & _ & _ & _ & Sst & Ssc & Sco & _).
  destruct (animate_stage en g dt) as (_ & _ & _ & _ & Aco & _).
  unfold coins_under in Ssc. rewrite Aco in Ssc.
  destruct (statics_fields _ _ Sst) as (_ & Sli & _).
  pose proof (filter_split_length
                (check_for_collision (PlayerSprite.sprite pa))
                (Coins (scene g))) as Hlen.
  remember (simulate' en g dt) as s eqn:Hs. clear Hs.
  destruct (resolve_cases s g' o Hu)
    as [(_ & -> & _)|[(_ & _ & -> & _)
        |[(_ & _ & _ & Hset & _)|(_ & _ & _ & -> & _)]]].
  1,2,4: split; [eexists; exact Sco|rewrite Ssc, Sco; lia].
  destruct (setup_fields _ _ _ Hset) as (_ & _ & _ & _ & Gli & _).
  lia.
Qed.

(** The level index never goes down. *)
Lemma step_level (w w' : window) (e : event) :
  dispatch' w e = Some w' ->
  (level_index (view w) <= level_index (view w'))%Z.
Proof.
  destruct w as [g|g v]; cbn [dispatch];
    [|intro E; injection E as <-; lia].
  destruct e as [dt|k|k].
  - destruct (on_update' g dt) as [[g' o]|] eqn:Hu; [|discriminate].
    intro E.
    assert (Hg : view w' = g') by (destruct o; injection E as <-; reflexivity).
    rewrite Hg. cbn [view]. clear E Hg.
    unfold on_update in Hu.
    destruct (physics_engine g) as [en|] eqn:Ee;
      [|injection Hu as <- <-; lia].
    destruct (player g) as [p|] eqn:Hp; [|injection Hu as <- <-; lia].
    destruct (frame_counters g en p dt Hp) as (Fst & _).
    destruct (statics_fields _ _ Fst) as (_ & Fli & _).
    remember (simulate' en g dt) as s eqn:Hs. clear Hs.
    destruct (resolve_cases s g' o Hu)
      as [(_ & -> & _)|[(_ & _ & -> & _)
          |[(_ & _ & _ & Hset & _)|(_ & _ & _ & -> & _)]]]; try lia.
    destruct (setup_fields _ _ _ Hset) as (_ & _ & _ & _ & Gli & _).
    lia.
  - intro E. injection E as <-. cbn [view].
    destruct (key_press_fields g k) as (_ & -> & _). lia.
  - intro E. injection E as <-. cbn [view].
    destruct (key_release_fields g k) as (_ & -> & _). lia.
Qed.

Lemma step_coins (w w' : window) (e : event) :
  dispatch' w e = Some w' ->
  level_index (view w') = level_index (view w) ->
  (exists keep,
     Coins (scene (view w')) = filter keep (Coins (scene (view w))))
  /\ (score (view w') + Z.of_nat (List.length (Coins (scene (view w'))))
      = score (view w)
        + Z.of_nat (List.length (Coins (scene (view w)))))%Z.
Proof.
  assert (Hsame : forall g g' : t,
            g' = g ->
            (exists keep, Coins (scene g') = filter keep (Coins (scene g)))
            /\ (score g' + Z.of_nat (List.length (Coins (scene g')))
                = score g + Z.of_nat (List.length (Coins (scene g))))%Z).
  { intros g g' ->. split; [|reflexivity].
    exists (fun _ => true). symmetry. apply filter_all. }
  destruct w as [g|g v]; cbn [dispatch];
    [|intro E; injection E as <-; intros _; apply Hsame; reflexivity].
  destruct e as [dt|k|k].
  - destruct (on_update' g dt) as [[g' o]|] eqn:Hu; [|discriminate].
    intro E.
    assert (Hg : view w' = g') by (destruct o; injection E as <-; reflexivity).
    rewrite Hg. cbn [view]. exact (frame_coins g g' o dt Hu).
  - intro E. injection E as <-. cbn [view]. intros _.
    unfold on_key_press.
    destruct (player g) as [p|]; [|apply Hsame; reflexivity].
    destruct (physics_engine g) as [en|]; [|apply Hsame; reflexivity].
    destruct k; try (apply Hsame; reflexivity);
      try (destruct (can_jump en (PlayerSprite.sprite p)));
      cbn; (split; [exists (fun _ => true); symmetry; apply filter_all
                   |reflexivity]).
  - intro E. injection E as <-. cbn [view]. intros _.
    unfold on_key_release.
    destruct k; try (apply Hsame; reflexivity);
      cbn; (split; [exists (fun _ => true); symmetry; apply filter_all
                   |reflexivity]).
Qed.

Lemma run_level (events : list event) (w w' : window) :
  run' w events = Some w' ->
  (level_index (view w) <= level_index (view w'))%Z.
Proof.
  revert w. induction events as [|e rest IH]; intros w; cbn [run].
  - intro E. injection E as <-. lia.
  - destruct (dispatch' w e) as [w1|] eqn:Ed; [|discriminate].
    intro Hr. pose proof (step_level w w1 e Ed). pose proof (IH w1 Hr). lia.
Qed.

(** The live coins and the score over any run that ends on the level it
    started on. *)
Lemma run_coins (events : list event) (w w' : window) :
  run' w events = Some w' ->
  level_index (view w') = level_index (view w) ->
  (exists keep,
     Coins (scene (view w')) = filter keep (Coins (scene (view w))))
  /\ (score (view w') + Z.of_nat (List.length (Coins (scene (view w'))))
      = score (view w)
        + Z.of_nat (List.length (Coins (scene (view w)))))%Z.
Proof.
  revert w. induction events as [|e rest IH]; intros w; cbn [run].
  - intro E. injection E as <-. intros _. split; [|reflexivity].
    exists (fun _ => true). symmetry. apply filter_all.
  - destruct (dispatch' w e) as [w1|] eqn:Ed; [|discriminate].
    intros Hr Hli.
    pose proof (step_level w w1 e Ed) as H1.
    pose proof (run_level rest w1 w' Hr) as H2.
    destruct (step_coins w w1 e Ed) as [[k1 Hk1] Hc1]; [lia|].
    destruct (IH w1 Hr) as [[k2 Hk2] Hc2]; [lia|].
    split; [|lia].
    exists (fun x => k1 x && k2 x). rewrite Hk2, Hk1. apply filter_both.
Qed.

Lemma filter_length_most {S} (f : S -> bool) (l : list S) :
  (List.length (filter f l) <= List.length l)%nat.
Proof. pose proof (filter_split_length f l). lia. Qed.

(** The player that the coin check meets does not depend on the timer or
    on the health. *)
Lemma animate_player (engine : PhysicsEnginePlatformer) (g : t)
    (dt timer : Q) (hearts : Z) :
  player (animate physics_update engine
            (set_invuln_timer (set_health g hearts) timer) dt)
  = player (animate physics_update engine g dt).
Proof.
  unfold animate, _handle_input.
  cbn [player set_invuln_timer set_health move_left move_right].
  destruct (player g); reflexivity.
Qed.

(** C8.  The coin check removes from the live coins exactly those that
    overlap the player and adds one to the score for each, whatever the
    timer or the health.  Score plus live coins is therefore unchanged,
    and a second run of the check on the result changes neither the
    coins nor the score.  Over any sequence of frames and key events that
    ends on the level it started on, the live coins are a selection of
    the former ones and score plus live coins is again unchanged: a coin
    once removed is never live again and never counted again.  Every
    frame of [on_update] runs this check on the player as the physics
    step and the animation left it: at the lose check the live coins are
    the former ones less those under that player and the score has grown
    by their number, and this is so for every value of the timer and of
    the health.  On a level of the catalog the frame returns, with that
    score, and with those live coins unless it moved on to the next
    level. *)
Theorem coins_collected_once (g : t) (p : PlayerSprite.t) :
  player g = Some p ->
  let hit := check_for_collision (PlayerSprite.sprite p) in
  let g1 := _check_coin_collisions check_for_collision g in
  Coins (scene g1) = filter (fun c => negb (hit c)) (Coins (scene g))
  /\ score g1
     = (score g + Z.of_nat (List.length (filter hit (Coins (scene g)))))%Z
  /\ (score g1 + Z.of_nat (List.length (Coins (scene g1)))
      = score g + Z.of_nat (List.length (Coins (scene g))))%Z
  /\ (let g2 := _check_coin_collisions check_for_collision g1 in
      score g2 = score g1 /\ Coins (scene g2) = Coins (scene g1))
  /\ (forall events w',
        run' (Playing g) events = Some w' ->
        level_index (view w') = level_index g ->
        (exists keep,
           Coins (scene (view w')) = filter keep (Coins (scene g)))
        /\ (score (view w')
            + Z.of_nat (List.length (Coins (scene (view w'))))
            = score g + Z.of_nat (List.length (Coins (scene g))))%Z)
  /\ (forall engine dt,
        physics_engine g = Some engine ->
        exists pa,
          player (animate physics_update engine g dt) = Some pa
          /\ let under := check_for_collision (PlayerSprite.sprite pa) in
             let gained :=
               Z.of_nat (List.length (filter under (Coins (scene g)))) in
             let remaining :=
               filter (fun c => negb (under c)) (Coins (scene g)) in
             score (simulate' engine g dt) = (score g + gained)%Z
             /\ Coins (scene (simulate' engine g dt)) = remaining
             /\ (forall timer hearts,
                   let g0 := set_invuln_timer (set_health g hearts) timer in
                   score (simulate' engine g0 dt) = (score g + gained)%Z
                   /\ Coins (scene (simulate' engine g0 dt)) = remaining)
             /\ ((0 <= level_index g < Z.of_nat (List.length LEVELS))%Z ->
                 exists g' o,
                   on_update' g dt = Some (g', o)
                   /\ score g' = (score g + gained)%Z
                   /\ (level_index g' = level_index g ->
                       Coins (scene g') = remaining))).
Proof.
  intros Hp hit g1.
  destruct (coins_stage g p Hp) as (_ & Cpl & _ & _ & _ & _ & Cco & Csc).
  fold g1 hit in Cpl, Cco, Csc.
  assert (Hp1 : player g1 = Some p) by congruence.
  destruct (coins_stage g1 p Hp1) as (_ & _ & _ & _ & _ & _ & Dco & Dsc).
  fold hit in Dco, Dsc.
  pose proof (filter_split_length hit (Coins (scene g))) as Hlen.
  split; [exact Cco|]. split; [exact Csc|]. split; [|split; [|split]].
  - rewrite Csc, Cco. lia.
  - cbv zeta. rewrite Dsc, Dco, Cco.
    rewrite filter_none, filter_twice. cbn [List.length]. split; [lia|].
    reflexivity.
  - intros events w' Hr Hli.
    exact (run_coins events (Playing g) w' Hr Hli).
  - intros engine dt He.
    destruct (simulate_summary engine g p dt Hp)
      as (pa & ps & Hpa & _ & _ & _ & Sst & Ssc & Sco & _).
    destruct (animate_stage engine g dt) as (_ & _ & _ & _ & Aco & _).
    unfold coins_under in Ssc. rewrite Aco in Ssc.
    exists pa. split; [exact Hpa|]. intros under gained remaining.
    split; [exact Ssc|]. split; [exact Sco|]. split.
    + intros timer hearts g0.
      assert (Hp0 : player g0 = Some p) by exact Hp.
      destruct (simulate_summary engine g0 p dt Hp0)
        as (pa0 & ps0 & Hpa0 & _ & _ & _ & _ & Ssc0 & Sco0 & _).
      destruct (animate_stage engine g0 dt) as (_ & _ & _ & _ & Aco0 & _).
      unfold coins_under in Ssc0. rewrite Aco0 in Ssc0.
      unfold g0 in Hpa0. rewrite animate_player, Hpa in Hpa0.
      injection Hpa0 as <-.
      split; [exact Ssc0|exact Sco0].
    + intro Hrange.
      destruct (statics_fields _ _ Sst) as (_ & Sli & _).
      destruct (resolve_total (simulate' engine g dt)) as (g' & o & Er).
      { rewrite Sli. rewrite levels_length in Hrange. exact Hrange. }
      exists g', o. rewrite (on_update_frame g engine p dt He Hp).
      split; [exact Er|].
      remember (simulate' engine g dt) as s eqn:Hs. clear Hs.
      destruct (resolve_cases s g' o Er)
        as [(_ & -> & _)|[(_ & _ & -> & _)
            |[(_ & _ & _ & Hset & _)|(_ & _ & _ & -> & _)]]].
      1,2,4: split; [exact Ssc|intros _; exact Sco].
      destruct (advance_fields s g' ltac:(lia) Hset) as (Gsc & _ & Gli & _).
      split; [rewrite Gsc; exact Ssc|intro; lia].
Qed.

(** *** The goal gate on later levels *)

(** Within a level no event rewrites the coin count or the goal marker. *)
Lemma step_kept (w w' : window) (e : event) :
  dispatch' w e = Some w' ->
  level_index (view w') = level_index (view w) ->
  total_coins (view w') = total_coins (view w)
  /\ Goal (scene (view w')) = Goal (scene (view w)).
Proof.
  destruct w as [g|g v]; cbn [dispatch];
    [|intro E; injection E as <-; intros _; split; reflexivity].
  destruct e as [dt|k|k].
  - destruct (on_update' g dt) as [[g' o]|] eqn:Hu; [|discriminate].
    intro E.
    assert (Hg : view w' = g') by (destruct o; injection E as <-; reflexivity).
    rewrite Hg. cbn [view]. clear E Hg. intro Hli.
    unfold on_update in Hu.
    destruct (physics_engine g) as [en|] eqn:Ee;
      [|injection Hu as <- <-; auto].
    destruct (player g) as [p|] eqn:Hp; [|injection Hu as <- <-; auto].
    destruct (frame_counters g en p dt Hp) as (Fst & _).
    destruct (statics_fields _ _ Fst) as (_ & Fli & Ftc & _ & Fgo).
    remember (simulate' en g dt) as s eqn:Hs. clear Hs.
    destruct (resolve_cases s g' o Hu)
      as [(_ & -> & _)|[(_ & _ & -> & _)
          |[(_ & _ & _ & Hset & _)|(_ & _ & _ & -> & _)]]];
      try (split; assumption).
    destruct (setup_fields _ _ _ Hset) as (_ & _ & _ & _ & Gli & _).
    lia.
  - intro E. injection E as <-. cbn [view]. intros _.
    unfold on_key_press.
    destruct (player g) as [p|]; [|split; reflexivity].
    destruct (physics_engine g) as [en|]; [|split; reflexivity].
    destruct k; try (destruct (can_jump en (PlayerSprite.sprite p)));
      split; reflexivity.
  - intro E. injection E as <-. cbn [view]. intros _.
    unfold on_key_release. destruct k; split; reflexivity.
Qed.

Lemma run_kept (events : list event) (w w' : window) :
  run' w events = Some w' ->
  level_index (view w') = level_index (view w) ->
  total_coins (view w') = total_coins (view w)
  /\ Goal (scene (view w')) = Goal (scene (view w)).
Proof.
  revert w. induction events as [|e rest IH]; intros w; cbn [run].
  - intro E. injection E as <-. intros _. split; reflexivity.
  - destruct (dispatch' w e) as [w1|] eqn:Ed; [|discriminate].
    intros Hr Hli.
    pose proof (step_level w w1 e Ed) as H1.
    pose proof (run_level rest w1 w' Hr) as H2.
    destruct (step_kept w w1 e Ed) as [Ht1 Hg1]; [lia|].
    destruct (IH w1 Hr) as [Ht2 Hg2]; [lia|].
    split; congruence.
Qed.

(** The player and the engine of a view that has been set up stay. *)
Lemma step_equipped (w w' : window) (e : event) :
  dispatch' w e = Some w' ->
  player (view w) <> None /\ physics_engine (view w) <> None ->
  player (view w') <> None /\ physics_engine (view w') <> None.
Proof.
  destruct w as [g|g v]; cbn [dispatch];
    [|intro E; injection E as <-; auto].
  cbn [view]. intros Hd [Hp He].
  destruct (player g) as [p|] eqn:Ep; [|congruence].
  destruct (physics_engine g) as [en|] eqn:Ee; [|congruence].
  destruct e as [dt|k|k].
  - rewrite (on_update_frame g en p dt Ee Ep) in Hd.
    destruct (frame_counters g en p dt Ep) as (Fst & Fpl & _).
    destruct (statics_fields _ _ Fst) as (Fen & _).
    rewrite Ee in Fen.
    remember (simulate' en g dt) as s eqn:Hs. clear Hs.
    destruct (resolve check_for_collision s) as [[g' o]|] eqn:Er;
      [|discriminate].
    assert (Hg : view w' = g')
      by (destruct o; injection Hd as <-; reflexivity).
    rewrite Hg. clear Hd Hg.
    destruct (resolve_cases s g' o Er)
      as [(_ & -> & _)|[(_ & _ & -> & _)
          |[(_ & _ & _ & Hset & _)|(_ & _ & _ & -> & _)]]];
      try (split; [exact Fpl|rewrite Fen; discriminate]).
    destruct (setup_fields _ _ _ Hset)
      as (_ & p' & en' & _ & _ & _ & _ & _ & _ & _ & _ & Gpl & _ & _ & Gen).
    rewrite Gpl, Gen. split; discriminate.
  - injection Hd as <-. cbn [view].
    destruct (key_press_fields g k) as (_ & _ & _ & _ & E5 & E6).
    split; [apply E6; congruence|rewrite E5, Ee; discriminate].
  - injection Hd as <-. cbn [view].
    destruct (key_release_fields g k) as (_ & _ & _ & _ & E5 & E6).
    rewrite E5, E6, Ep, Ee. split; discriminate.
Qed.

Lemma run_equipped (events : list event) (w w' : window) :
  run' w events = Some w' ->
  player (view w) <> None /\ physics_engine (view w) <> None ->
  player (view w') <> None /\ physics_engine (view w') <> None.
Proof.
  revert w. induction events as [|e rest IH]; intros w; cbn [run].
  - intro E. injection E as <-. auto.
  - destruct (dispatch' w e) as [w1|] eqn:Ed; [|discriminate].
    intros Hr Hw. apply (IH w1 Hr). exact (step_equipped w w1 e Ed Hw).
Qed.

(** The goal check, read off its three tests. *)
Lemma check_goal_iff (s : t) :
  _check_goal check_for_collision s = true
  <-> (exists ps goal rest,
         player s = Some ps
         /\ Goal (scene s) = goal :: rest
         /\ check_for_collision (PlayerSprite.sprite ps) goal = true)
      /\ (total_coins s <= score s)%Z.
Proof.
  unfold _check_goal. split.
  - destruct (player s) as [ps|]; [|discriminate].
    destruct (Goal (scene s)) as [|goal rest]; [discriminate|].
    destruct (check_for_collision _ goal) eqn:Ec; [|discriminate].
    intro H. apply Z.leb_le in H. split; [|exact H].
    exists ps, goal, rest. auto.
  - intros [(ps & goal & rest & -> & -> & ->) H].
    apply Z.leb_le. exact H.
Qed.

(** C10. After [setup] for an index above 0 the score is the one carried
    over, while the coin count is that of the new level alone.  The goal
    check compares the two: with the player on the goal marker it holds
    exactly when the score has reached the coin count, and not before.
    In every state that play reaches on that level the score is the
    carried score plus the number [k] of the level's coins collected
    since.  A frame from such a state clears the level (it moves on to the
    next level or shows the game-over view of a won game) exactly when
    the lose check lets it through, the player overlaps the goal marker
    and the coins of the level collected by then make up the coin count
    less the carried score, which is fewer than the coins the level
    holds. *)
Theorem carried_score_opens_goal (g g' : t) (i : Z) :
  (0 < i)%Z ->
  (0 < score g)%Z ->
  setup g i = Some g' ->
  let placed := Z.of_nat (List.length (Coins (scene g'))) in
  score g' = score g
  /\ (exists level,
        Py.index LEVELS i = Some level
        /\ total_coins g' = Z.of_nat (List.length (Level.coins level))
        /\ List.length (Coins (scene g'))
           = List.length (Level.coins level))
  /\ (forall h p goal rest,
        total_coins h = total_coins g' ->
        player h = Some p ->
        Goal (scene h) = goal :: rest ->
        (_check_goal check_for_collision h = true
         <-> check_for_collision (PlayerSprite.sprite p) goal = true
             /\ (total_coins g' <= score h)%Z))
  /\ (forall events h,
        run' (Playing g') events = Some (Playing h) ->
        level_index h = i ->
        let k :=
          (placed - Z.of_nat (List.length (Coins (scene h))))%Z in
        (0 <= k)%Z
        /\ score h = (score g + k)%Z
        /\ total_coins h = total_coins g'
        /\ forall dt h' o,
             on_update' h dt = Some (h', o) ->
             exists engine,
               physics_engine h = Some engine
               /\ let s := simulate' engine h dt in
                  let k' :=
                    (placed
                     - Z.of_nat (List.length (Coins (scene s))))%Z in
                  (k <= k')%Z
                  /\ score s = (score g + k')%Z
                  /\ ((level_index h' = (i + 1)%Z
                       \/ o = Some (GameOverView.mk true (score s)
                                                    (level_name s)))
                      <-> _check_lose s = Some false
                          /\ (exists ps goal rest,
                                player s = Some ps
                                /\ Goal (scene s) = goal :: rest
                                /\ check_for_collision
                                     (PlayerSprite.sprite ps) goal = true)
                          /\ (Z.max 0 (total_coins g' - score g)
                              <= k')%Z))
  /\ ((0 < total_coins g')%Z ->
      (Z.max 0 (total_coins g' - score g') < total_coins g')%Z).
Proof.
  intros Hi Hs Es placed.
  destruct (setup_fields _ _ _ Es)
    as (level & p0 & en0 & Ei & Gli & _ & Gtc & Gco & _ & _ & Gkeep
        & Gpl & _ & _ & Gen).
  destruct Gkeep as [Gsc _]; [lia|].
  split; [exact Gsc|]. split; [exists level; auto|].
  split; [|split].
  - intros h p goal rest Ht Hp Hg.
    unfold _check_goal. rewrite Hp, Hg, Ht.
    destruct (check_for_collision (PlayerSprite.sprite p) goal).
    + rewrite Z.leb_le. tauto.
    + split; [discriminate|]. intros [H _]. discriminate H.
  - intros events h Hrun Hli k.
    destruct (run_coins events (Playing g') (Playing h) Hrun)
      as [[keep Hk] Hc]; [cbn [view]; congruence|].
    destruct (run_kept events (Playing g') (Playing h) Hrun)
      as [Htc Hgo]; [cbn [view]; congruence|].
    destruct (run_equipped events (Playing g') (Playing h) Hrun)
      as [Hpl Hen];
      [cbn [view]; rewrite Gpl, Gen; split; discriminate|].
    cbn [view] in Hk, Hc, Htc, Hgo, Hpl, Hen.
    pose proof (filter_length_most keep (Coins (scene g'))) as Hmost.
    rewrite <- Hk in Hmost.
    split; [subst k placed; lia|].
    split; [subst k placed; lia|].
    split; [exact Htc|].
    intros dt h' o Hu.
    destruct (player h) as [p|] eqn:Ep; [|congruence].
    destruct (physics_engine h) as [en|] eqn:Ee; [|congruence].
    exists en. split; [reflexivity|]. intros s k'. subst k' s.
    rewrite (on_update_frame h en p dt Ee Ep) in Hu.
    destruct (simulate_summary en h p dt Ep)
      as (pa & ps & _ & _ & _ & _ & Sst & Ssc & Sco & _).
    destruct (animate_stage en h dt) as (_ & _ & _ & _ & Aco & _).
    unfold coins_under in Ssc. rewrite Aco in Ssc.
    destruct (statics_fields _ _ Sst) as (_ & Sli & Stc & _ & _).
    pose proof (filter_split_length
                  (check_for_collision (PlayerSprite.sprite pa))
                  (Coins (scene h))) as Hlen.
    remember (simulate' en h dt) as s eqn:Hsim. clear Hsim.
    assert (Hlive : (Z.of_nat (List.length (Coins (scene s)))
                     + (score s - score h)
                     = Z.of_nat (List.length (Coins (scene h))))%Z)
      by (rewrite Sco, Ssc; lia).
    split; [subst k placed; lia|].
    split; [subst k placed; lia|].
    pose proof (check_goal_iff s) as Hgate.
    assert (Hopen : (total_coins s <= score s)%Z
                    <-> (Z.max 0 (total_coins g' - score g)
                         <= placed
                            - Z.of_nat (List.length (Coins (scene s))))%Z)
      by (subst k placed; lia).
    destruct (resolve_cases s h' o Hu)
      as [(Hlose & -> & ->)|[(Hlose & Hgoal & -> & ->)
          |[(Hlose & Hgoal & Hlt & Hset & ->)
           |(Hlose & Hgoal & Hge & -> & ->)]]].
    + split.
      * intros [H|H]; [lia|discriminate H].
      * intros (H & _). congruence.
    + split.
      * intros [H|H]; [lia|discriminate H].
      * intros (_ & Hov & Hle).
        assert (_check_goal check_for_collision s = true)
          by (apply Hgate; split; [exact Hov|apply Hopen; exact Hle]).
        congruence.
    + split.
      * intros _. split; [exact Hlose|].
        apply Hgate in Hgoal. destruct Hgoal as [Hov Hle].
        split; [exact Hov|apply Hopen; exact Hle].
      * intros _. left.
        destruct (setup_fields _ _ _ Hset) as (_ & _ & _ & _ & Gli' & _).
        lia.
    + split.
      * intros _. split; [exact Hlose|].
        apply Hgate in Hgoal. destruct Hgoal as [Hov Hle].
        split; [exact Hov|apply Hopen; exact Hle].
      * intros _. right. reflexivity.
  - intro Hpos. lia.
Qed.

(** *** The first frame of a level *)


End Frame.

(** *** The theorems on concrete sessions *)

Ltac evaluate :=
  vm_compute;
  first [ reflexivity
        | discriminate
        | let H := fresh in intro H; discriminate H
        | repeat split; first [reflexivity | discriminate
                              | let H := fresh in intro H; discriminate H] ].

(** The enemy of level 0 is within its bounds after forty steps. *)
Lemma enemy_patrol_stays_in_bounds_witness :
  250 <= EnemySprite.center_x (Nat.iter 40 EnemySprite.update Sample.slime)
    <= 350.
Proof.
  destruct (enemy_patrol_stays_in_bounds Sample.slime 40) as [H _];
    [evaluate | evaluate | exact H].
Defined.

(** One heart left, an enemy in contact and the player on the goal of the
    last level with every coin counted: the frame ends in a lost game. *)
Lemma loss_takes_priority_witness :
  option_map snd
    (GameView.on_update Sample.free_fall Sample.touching Sample.last_heart 0)
  = Some (Some (GameOverView.mk false 28 "Volcano Challenge")).
Proof.
  rewrite (loss_takes_priority Sample.free_fall Sample.touching
             Sample.last_heart (Sample.the_engine Sample.last_heart)
             (Sample.the_player Sample.last_heart) 0).
  - evaluate.
  - evaluate.
  - evaluate.
  - left. evaluate.
  - evaluate.
Defined.

(** All five coins of level 0 collected and the player on the goal: the
    frame moves on to level 1 with the score and the health it had. *)
Lemma level_clear_transitions_witness :
  exists s',
    GameView.on_update Sample.at_rest Sample.touching Sample.fresh 0
    = Some (s', None)
    /\ GameView.level_index s' = 1%Z
    /\ GameView.score s' = 5%Z
    /\ GameView.health s' = 2%Z.
Proof.
  destruct (level_clear_transitions Sample.at_rest Sample.touching
              Sample.fresh (Sample.the_engine Sample.fresh)
              (Sample.the_player Sample.fresh) 0)
    as (_ & _ & Hadv & _); [evaluate | evaluate | evaluate | evaluate |].
  destruct Hadv as (s' & Hu & _ & Hli & Hsc & Hhe); [evaluate | evaluate |].
  exists s'. split; [exact Hu|].
  rewrite Hli, Hsc, Hhe. evaluate.
Defined.

(** Setting up the second level keeps five coins and two hearts. *)
Lemma setup_resets_on_first_level_only_witness :
  exists g',
    GameView.setup Sample.carrying 1 = Some g'
    /\ GameView.score g' = 5%Z
    /\ GameView.health g' = 2%Z.
Proof.
  destruct (setup_resets_on_first_level_only Sample.carrying 1)
    as (level & g' & p & _ & Es & _ & _ & _ & _ & _ & Hkeep); [evaluate|].
  destruct Hkeep as [Hsc Hhe]; [evaluate|].
  exists g'. split; [exact Es|]. rewrite Hsc, Hhe. evaluate.
Defined.

(** The timer of a fresh session is not negative. *)
Lemma invuln_timer_counts_down_witness :
  0 <= GameView.invuln_timer (GameView.view (GameView.Playing Sample.fresh)).
Proof.
  destruct (invuln_timer_counts_down Sample.free_fall Sample.airborne
              Sample.boxes (GameView.Playing Sample.fresh)) as [H _].
  - apply GameView.reachable_start with (gender := "female"%string).
    evaluate.
  - exact H.
Defined.

(** The health of a fresh session after a frame is in range. *)
Lemma health_stays_in_range_witness :
  (0 <= GameView.health (GameView.view (GameView.Playing Sample.fresh_next))
   <= PLAYER_MAX_HEALTH)%Z.
Proof.
  destruct (health_stays_in_range Sample.free_fall Sample.airborne
              Sample.boxes (GameView.Playing Sample.fresh_next)) as [H _].
  - apply GameView.reachable_step
      with (w := GameView.Playing Sample.fresh) (e := GameView.Update 0).
    + apply GameView.reachable_start with (gender := "female"%string).
      evaluate.
    + evaluate.
  - exact H.
Defined.

(** A player on the first coin of level 0, with one heart left and the
    timer of a hit still running: the frame collects that coin, and only
    it. *)
Lemma coins_collected_once_witness :
  exists g' o,
    GameView.on_update Sample.at_rest Sample.boxes Sample.shielded 0
    = Some (g', o)
    /\ GameView.score g' = 1%Z
    /\ List.length (GameView.Coins (GameView.scene g')) = 4%nat.
Proof.
  destruct (coins_collected_once Sample.at_rest Sample.airborne
              Sample.boxes Sample.shielded
              (Sample.the_player Sample.shielded))
    as (_ & _ & _ & _ & _ & Hframe); [evaluate|].
  destruct (Hframe (Sample.the_engine Sample.shielded) 0)
    as (pa & Hpa & Hrest); [evaluate|].
  cbv zeta in Hrest. destruct Hrest as (_ & _ & _ & Hu).
  destruct Hu as (g' & o & Hu & Hsc & Hco); [evaluate|].
  vm_compute in Hpa. injection Hpa as <-.
  assert (Hli : GameView.level_index g'
                = GameView.level_index Sample.shielded).
  { vm_compute in Hu. injection Hu as <- _. reflexivity. }
  exists g', o. split; [exact Hu|].
  rewrite Hsc, (Hco Hli). vm_compute. split; reflexivity.
Defined.



(** The second level, entered with five coins, after a key press: the
    score is still the five coins carried.  The frame that finds the
    player on the goal marker with two of the seven coins of the level
    under it reaches the lose check with a score of seven and five coins
    of the level still live, and moves on to the last level. *)
Lemma carried_score_opens_goal_witness :
  GameView.score Sample.second_steered = 5%Z
  /\ GameView.score
       (GameView.simulate Sample.lift Sample.reach
          (Sample.the_engine Sample.second_steered)
          Sample.second_steered 0) = 7%Z
  /\ List.length
       (GameView.Coins
          (GameView.scene
             (GameView.simulate Sample.lift Sample.reach
                (Sample.the_engine Sample.second_steered)
                Sample.second_steered 0))) = 5%nat
  /\ GameView.level_index Sample.second_cleared = 2%Z.
Proof.
  destruct (carried_score_opens_goal Sample.lift Sample.airborne
              Sample.reach Sample.carrying Sample.second_level 1)
    as (_ & _ & _ & Hplay & _); [evaluate | evaluate | evaluate |].
  destruct (Hplay [GameView.KeyPress GameView.D] Sample.second_steered)
    as (_ & Hsc & _ & Hframe); [evaluate | evaluate |].
  split; [rewrite Hsc; evaluate|].
  destruct (Hframe 0 Sample.second_cleared None) as (en & He & Hrest);
    [evaluate|].
  assert (E : en = Sample.the_engine Sample.second_steered)
    by (unfold Sample.the_engine; rewrite He; reflexivity).
  subst en. clear He Hsc Hframe Hplay.
  cbv zeta in Hrest. destruct Hrest as (_ & Hsc & Hiff).
  split; [rewrite Hsc; clear; vm_compute; reflexivity|].
  split; [clear; vm_compute; reflexivity|].
  destruct (proj2 Hiff) as [H|H]; [|exact H|discriminate H].
  clear. split; [vm_compute; reflexivity|].
  split; [|vm_compute; discriminate].
  eexists _, _, _. vm_compute. repeat split.
Defined.

(** ** More of the code *)

(** *** Patrolling enemies *)

Lemma enemy_row (n : nat) (e : EnemySprite.t) :
  Sprite.center_y (EnemySprite.sprite (Nat.iter n EnemySprite.update e))
  = Sprite.center_y (EnemySprite.sprite e).
Proof.
  induction n as [|n IH]; [reflexivity|].
  change (Nat.iter (S n) EnemySprite.update e)
    with (EnemySprite.update (Nat.iter n EnemySprite.update e)).
  rewrite <- IH. generalize (Nat.iter n EnemySprite.update e). intro e'.
  unfold EnemySprite.update.
  repeat match goal with
         | |- context [if ?b then _ else _] => destruct b
         end; reflexivity.
Qed.

(** X1.  With ordered bounds, one [update] brings an enemy within its
    patrol bounds wherever it started and whatever its speed, and it stays
    within them from then on; no [update] moves it vertically. *)
Theorem enemy_enters_bounds (e : EnemySprite.t) (n : nat) :
  EnemySprite.patrol_min_x e <= EnemySprite.patrol_max_x e ->
  let e' := Nat.iter (S n) EnemySprite.update e in
  EnemySprite.patrol_min_x e <= EnemySprite.center_x e'
    <= EnemySprite.patrol_max_x e
  /\ Sprite.center_y (EnemySprite.sprite e')
     = Sprite.center_y (EnemySprite.sprite e).
Proof.
  intros Hb e'. split; [|apply enemy_row].
  subst e'.
  change (Nat.iter (S n) EnemySprite.update e)
    with (EnemySprite.update (Nat.iter n EnemySprite.update e)).
  destruct (iter_bounds n e) as [Hmin Hmax].
  pose proof (update_in_range (Nat.iter n EnemySprite.update e)) as H.
  rewrite Hmin, Hmax in H. exact (H Hb).
Qed.

(** X2.  An enemy whose two bounds coincide, standing on them with a
    speed other than zero, stays there and turns around on every
    [update]. *)
Theorem enemy_pinned_turns_every_tick (e : EnemySprite.t) :
  EnemySprite.patrol_min_x e == EnemySprite.patrol_max_x e ->
  EnemySprite.center_x e == EnemySprite.patrol_min_x e ->
  ~ EnemySprite.change_x e == 0 ->
  EnemySprite.center_x (EnemySprite.update e) == EnemySprite.patrol_min_x e
  /\ EnemySprite.change_x (EnemySprite.update e)
     == - EnemySprite.change_x e.
Proof.
  intros Hb Hx Hv. unfold EnemySprite.update.
  change (EnemySprite.center_x
            (EnemySprite.set_center_x e
               (EnemySprite.center_x e + EnemySprite.change_x e)))
    with (EnemySprite.center_x e + EnemySprite.change_x e).
  change (EnemySprite.patrol_min_x
            (EnemySprite.set_center_x e
               (EnemySprite.center_x e + EnemySprite.change_x e)))
    with (EnemySprite.patrol_min_x e).
  change (EnemySprite.patrol_max_x
            (EnemySprite.set_center_x e
               (EnemySprite.center_x e + EnemySprite.change_x e)))
    with (EnemySprite.patrol_max_x e).
  destruct (Py.ltb _ (EnemySprite.patrol_min_x e)) eqn:E1.
  - split; [reflexivity|]. cbn. unfold EnemySprite.change_x. ring.
  - destruct (Py.ltb (EnemySprite.patrol_max_x e) _) eqn:E2.
    + split; [cbn; symmetry; exact Hb|].
      cbn. unfold EnemySprite.change_x. ring.
    + apply ltb_false in E1, E2. exfalso. apply Hv. lra.
Qed.

Lemma enemy_pinned_turns_every_tick_witness :
  let e := EnemySprite.init (enemy_spec (300, 170) 300 300 2.0) in
  EnemySprite.center_x (EnemySprite.update e) == 300
  /\ EnemySprite.change_x (EnemySprite.update e) == - (2.0).
Proof.
  intro e.
  apply (enemy_pinned_turns_every_tick e); evaluate.
Defined.

Lemma enemy_enters_bounds_witness :
  let e := EnemySprite.init (enemy_spec (900, 170) 250 350 2.0) in
  250 <= EnemySprite.center_x (EnemySprite.update e) <= 350.
Proof.
  intro e.
  destruct (enemy_enters_bounds e 0) as [H _]; [evaluate|exact H].
Defined.

(** *** Hazards *)

Lemma lava_step (h : Hazard.t) (delta_time : Q) :
  Hazard.cls h = Hazard.Lava ->
  let h' := Hazard.update_animation h delta_time in
  Hazard.cls h' = Hazard.Lava
  /\ Hazard.center_x h' = Hazard.center_x h
  /\ Hazard.center_y h' = Hazard.center_y h
  /\ Sprite.width (Hazard.sprite h') = Sprite.width (Hazard.sprite h)
  /\ (Sprite.alpha (Hazard.sprite h') = 200%Z
      \/ Sprite.alpha (Hazard.sprite h') = 255%Z).
Proof.
  intros Hl h'. subst h'. unfold Hazard.update_animation. rewrite Hl.
  unfold Hazard.lava_update_animation, Hazard.center_x, Hazard.center_y.
  cbn [Hazard.cls Hazard.sprite Sprite.set_alpha Sprite.center_x
       Sprite.center_y Sprite.width Sprite.alpha].
  repeat split; try assumption.
  pose proof (Z.mod_pos_bound (Py.int ((Hazard.time h + delta_time) * 4)) 2)
    as Hm.
  lia.
Qed.

(** X3.  A lava hazard never moves and keeps its width: after any
    sequence of [update_animation] calls its centre is where it was
    created, and its opacity is 255 or 200, nothing in between. *)
Theorem lava_glows_in_place (position : Q * Q) (w : Q)
    (delta_times : list Q) :
  let h :=
    fold_left Hazard.update_animation delta_times
              (Hazard.LavaHazard position w) in
  (Hazard.center_x h, Hazard.center_y h) = position
  /\ Sprite.width (Hazard.sprite h) = Some w
  /\ (Sprite.alpha (Hazard.sprite h) = 200%Z
      \/ Sprite.alpha (Hazard.sprite h) = 255%Z).
Proof.
  set (h0 := Hazard.LavaHazard position w).
  assert (Inv : Hazard.cls h0 = Hazard.Lava
                /\ Hazard.center_x h0 = fst position
                /\ Hazard.center_y h0 = snd position
                /\ Sprite.width (Hazard.sprite h0) = Some w
                /\ (Sprite.alpha (Hazard.sprite h0) = 200%Z
                    \/ Sprite.alpha (Hazard.sprite h0) = 255%Z)).
  { repeat split. right. reflexivity. }
  clearbody h0. revert h0 Inv.
  induction delta_times as [|d ds IH]; intros h0 (Hc & Hx & Hy & Hw & Ha).
  - cbn. rewrite Hx, Hy. destruct position. auto.
  - cbn [fold_left]. apply IH.
    destruct (lava_step h0 d Hc) as (Hc' & Hx' & Hy' & Hw' & Ha').
    repeat split; first [congruence | exact Ha'].
Qed.

Lemma hazard_clock_step (h : Hazard.t) (delta_time : Q) :
  Hazard.time (Hazard.update_animation h delta_time)
  = Hazard.time h + delta_time.
Proof.
  unfold Hazard.update_animation. destruct (Hazard.cls h); reflexivity.
Qed.

(** X4.  The animation clock of a hazard, lava or water, is the sum of the
    frame lengths it was given: it is never reset and never wrapped. *)
Theorem hazard_clock_adds_up (h : Hazard.t) (delta_times : list Q) :
  Hazard.time (fold_left Hazard.update_animation delta_times h)
  == Hazard.time h + fold_right Qplus 0 delta_times.
Proof.
  revert h. induction delta_times as [|d ds IH]; intro h.
  - cbn. ring.
  - cbn [fold_left fold_right]. rewrite IH, hazard_clock_step. ring.
Qed.

(** *** The player's animation *)

Ltac animation_cases :=
  unfold PlayerSprite.update_animation;
  repeat match goal with
         | |- context [if ?b then _ else _] => destruct b eqn:?
         end.

(** X5.  [update_animation] only picks a texture and a facing: it leaves
    the player's centre, velocity, scale, width and opacity as they are,
    and the three texture sets it chooses from; afterwards the sprite is
    flipped exactly when it faces left. *)
Theorem animation_keeps_motion (p : PlayerSprite.t) (delta_time : Q) :
  let p' := PlayerSprite.update_animation p delta_time in
  Sprite.set_texture (PlayerSprite.sprite p')
    (Sprite.texture (PlayerSprite.sprite p))
  = Sprite.set_texture (PlayerSprite.sprite p)
      (Sprite.texture (PlayerSprite.sprite p))
  /\ PlayerSprite.idle_texture p' = PlayerSprite.idle_texture p
  /\ PlayerSprite.jump_texture p' = PlayerSprite.jump_texture p
  /\ PlayerSprite.walk_textures p' = PlayerSprite.walk_textures p
  /\ PlayerSprite.flip_h p' = negb (PlayerSprite.facing_right p').
Proof.
  animation_cases; repeat split; reflexivity.
Qed.

(** X6.  The walk frame stays a valid index into the walk textures, so
    [walk_textures[cur_walk_frame]] never raises, and the texture shown
    after [update_animation] is the idle one, the jump one or one of the
    walk textures. *)
Theorem walk_frame_in_range (p : PlayerSprite.t) (delta_time : Q) :
  (PlayerSprite.cur_walk_frame p
   < List.length (PlayerSprite.walk_textures p))%nat ->
  let p' := PlayerSprite.update_animation p delta_time in
  (PlayerSprite.cur_walk_frame p'
   < List.length (PlayerSprite.walk_textures p'))%nat
  /\ In (Sprite.texture (PlayerSprite.sprite p'))
        (PlayerSprite.idle_texture p :: PlayerSprite.jump_texture p
         :: PlayerSprite.walk_textures p).
Proof.
  intros Hlt.
  assert (Hpos : (0 < List.length (PlayerSprite.walk_textures p))%nat)
    by lia.
  assert (Hmod : ((PlayerSprite.cur_walk_frame p + 1)
                  mod List.length (PlayerSprite.walk_textures p)
                  < List.length (PlayerSprite.walk_textures p))%nat)
    by (apply Nat.mod_upper_bound; lia).
  animation_cases;
    cbn [PlayerSprite.cur_walk_frame PlayerSprite.walk_textures
         PlayerSprite.sprite Sprite.texture Sprite.set_texture];
    (split; [first [assumption | lia]|]);
    first [ left; reflexivity
          | right; left; reflexivity
          | right; right; apply nth_In; assumption ].
Qed.

Lemma walk_frame_in_range_witness :
  let p := PlayerSprite.init "male" in
  (PlayerSprite.cur_walk_frame
     (PlayerSprite.update_animation (PlayerSprite.set_change_x p 5.0) 0.25)
   < 8)%nat.
Proof.
  intro p.
  destruct (walk_frame_in_range (PlayerSprite.set_change_x p 5.0) 0.25)
    as [H _]; [cbn; lia|exact H].
Defined.

(** X7.  The facing follows the sign of the horizontal velocity and is
    remembered at rest: moving left faces left, moving right faces right,
    standing still keeps the last facing. *)
Theorem facing_follows_velocity (p : PlayerSprite.t) (delta_time : Q) :
  let p' := PlayerSprite.update_animation p delta_time in
  (PlayerSprite.change_x p < 0 -> PlayerSprite.facing_right p' = false)
  /\ (0 < PlayerSprite.change_x p -> PlayerSprite.facing_right p' = true)
  /\ (PlayerSprite.change_x p == 0 ->
      PlayerSprite.facing_right p' = PlayerSprite.facing_right p).
Proof.
  animation_cases; cbn [PlayerSprite.facing_right];
    repeat match goal with
           | H : Py.ltb _ _ = true |- _ => apply ltb_true in H
           | H : Py.ltb _ _ = false |- _ => apply ltb_false in H
           end;
    repeat split; intros; first [reflexivity | exfalso; lra].
Qed.

(** X8.  Only the exact string ["male"] selects the male textures; every
    other string gets the female ones.  Either way the player starts idle,
    facing right, on walk frame 0 of 8. *)
Theorem player_textures_by_gender (gender : string) :
  let p := PlayerSprite.init gender in
  (gender = "male"%string ->
   PlayerSprite.idle_texture p = PLAYER_MALE_IDLE
   /\ PlayerSprite.jump_texture p = PLAYER_MALE_JUMP
   /\ PlayerSprite.walk_textures p = PLAYER_MALE_WALK)
  /\ (gender <> "male"%string ->
      PlayerSprite.idle_texture p = PLAYER_FEMALE_IDLE
      /\ PlayerSprite.jump_texture p = PLAYER_FEMALE_JUMP
      /\ PlayerSprite.walk_textures p = PLAYER_FEMALE_WALK)
  /\ Sprite.texture (PlayerSprite.sprite p) = PlayerSprite.idle_texture p
  /\ PlayerSprite.facing_right p = true
  /\ PlayerSprite.cur_walk_frame p = 0%nat
  /\ List.length (PlayerSprite.walk_textures p) = 8%nat.
Proof.
  unfold PlayerSprite.init.
  destruct (String.eqb_spec gender "male") as [->|Hne];
    cbn [PlayerSprite.idle_texture PlayerSprite.jump_texture
         PlayerSprite.walk_textures PlayerSprite.sprite
         PlayerSprite.facing_right PlayerSprite.cur_walk_frame
         Sprite.texture Sprite.new];
    repeat split; try reflexivity; intros; congruence.
Qed.

(** *** Input *)

(** X9.  [_handle_input] sets the player's horizontal velocity from the
    two move flags alone: none or both give zero, left alone gives minus
    the move speed, right alone gives the move speed.  The player's centre
    and vertical velocity are untouched. *)
Theorem input_sets_horizontal_velocity (g : GameView.t)
    (p : PlayerSprite.t) :
  GameView.player g = Some p ->
  exists p',
    GameView.player (GameView._handle_input g) = Some p'
    /\ PlayerSprite.change_x p'
       == (if GameView.move_right g then PLAYER_MOVE_SPEED else 0)
          - (if GameView.move_left g then PLAYER_MOVE_SPEED else 0)
    /\ (GameView.move_left g = GameView.move_right g ->
        PlayerSprite.change_x p' == 0)
    /\ PlayerSprite.center_x p' = PlayerSprite.center_x p
    /\ PlayerSprite.center_y p' = PlayerSprite.center_y p
    /\ PlayerSprite.change_y p' = PlayerSprite.change_y p.
Proof.
  intro Hp. unfold GameView._handle_input. rewrite Hp.
  eexists. split; [reflexivity|].
  destruct (GameView.move_left g), (GameView.move_right g);
    cbn; repeat split; intros; try reflexivity; try discriminate.
Qed.

Lemma input_sets_horizontal_velocity_witness :
  exists p',
    GameView.player
      (GameView._handle_input
         (GameView.set_move_left
            (GameView.set_move_right Sample.fresh true) true))
    = Some p'
    /\ PlayerSprite.change_x p' == 0.
Proof.
  destruct (input_sets_horizontal_velocity
              (GameView.set_move_left
                 (GameView.set_move_right Sample.fresh true) true)
              (Sample.the_player Sample.fresh))
    as (p' & Hp & _ & Hz & _); [evaluate|].
  exists p'. split; [exact Hp|]. apply Hz. reflexivity.
Defined.

Section Stages.

Variable physics_update :
  GameView.PhysicsEnginePlatformer -> Sprite.t -> Sprite.t.
Variable can_jump : GameView.PhysicsEnginePlatformer -> Sprite.t -> bool.
Variable check_for_collision : Sprite.t -> Sprite.t -> bool.

Lemma handle_input_overwrites (g : GameView.t) (v : Q) :
  GameView._handle_input (with_change_x g v) = GameView._handle_input g.
Proof.
  destruct g as [gd sc [p|] en li s h tc nm ti ml mr]; reflexivity.
Qed.

(** X10.  Once a level is set up, a frame never reads the horizontal
    velocity the player had before it: [on_update] gives the same result
    whatever that velocity was. In particular the horizontal reversal of an
    enemy knockback, written after the physics step, is overwritten by the
    input of the next frame before it can move the player. *)
Theorem frame_ignores_old_horizontal_velocity (g : GameView.t) (v : Q)
    (delta_time : Q) :
  GameView.player g <> None ->
  GameView.physics_engine g <> None ->
  GameView.on_update physics_update check_for_collision
    (with_change_x g v) delta_time
  = GameView.on_update physics_update check_for_collision g delta_time.
Proof.
  intros Hp He.
  destruct (GameView.player g) as [p|] eqn:Ep; [|congruence].
  unfold GameView.on_update.
  assert (Ee : GameView.physics_engine (with_change_x g v)
               = GameView.physics_engine g) by reflexivity.
  assert (Ew : GameView.player (with_change_x g v)
               = Some (PlayerSprite.set_change_x p v))
    by (unfold with_change_x; rewrite Ep; reflexivity).
  rewrite Ee, Ew, Ep.
  destruct (GameView.physics_engine g) as [en|]; [|congruence].
  unfold GameView.simulate, GameView.animate.
  rewrite handle_input_overwrites. reflexivity.
Qed.

End Stages.

Lemma frame_ignores_old_horizontal_velocity_witness :
  GameView.on_update Sample.free_fall Sample.boxes
    (with_change_x Sample.fresh (-5.0)) 0.25
  = GameView.on_update Sample.free_fall Sample.boxes Sample.fresh 0.25.
Proof.
  apply (frame_ignores_old_horizontal_velocity Sample.free_fall
           Sample.boxes Sample.fresh (-5.0) 0.25); evaluate.
Defined.

(** *** Damage *)

Section Damage.

Variable physics_update :
  GameView.PhysicsEnginePlatformer -> Sprite.t -> Sprite.t.
Variable can_jump : GameView.PhysicsEnginePlatformer -> Sprite.t -> bool.
Variable check_for_collision : Sprite.t -> Sprite.t -> bool.


(** X12.  When the timer has run out, the enemy check comes before the
    hazard check and its knockback is the one that stays: a player
    touching an enemy loses one heart, gets half the jump speed upward and
    has its horizontal velocity negated, whether or not a hazard touches it
    too; a player touching only a hazard loses one heart, gets the jump
    speed divided by 1.5 upward and keeps its horizontal velocity.  Neither
    check moves the player. *)
Theorem enemy_knockback_comes_first (g : GameView.t) (p : PlayerSprite.t)
    (delta_time : Q) :
  GameView.player g = Some p ->
  Py.max 0.0 (GameView.invuln_timer g - delta_time) <= 0 ->
  let g' :=
    GameView._check_hazard_collisions check_for_collision
      (GameView._check_enemy_collisions check_for_collision g delta_time)
      delta_time in
  let enemy :=
    existsb (fun e => check_for_collision (PlayerSprite.sprite p)
                        (EnemySprite.sprite e))
            (GameView.Enemies (GameView.scene g)) in
  let hazard :=
    existsb (fun h => check_for_collision (PlayerSprite.sprite p)
                        (Hazard.sprite h))
            (GameView.Hazards (GameView.scene g)) in
  exists p',
    GameView.player g' = Some p'
    /\ PlayerSprite.center_x p' = PlayerSprite.center_x p
    /\ PlayerSprite.center_y p' = PlayerSprite.center_y p
    /\ (enemy = true ->
        GameView.health g' = (GameView.health g - 1)%Z
        /\ PlayerSprite.change_y p' = PLAYER_JUMP_SPEED / 2
        /\ PlayerSprite.change_x p' = PlayerSprite.change_x p * -1)
    /\ (enemy = false -> hazard = true ->
        GameView.health g' = (GameView.health g - 1)%Z
        /\ PlayerSprite.change_y p' = PLAYER_JUMP_SPEED / 1.5
        /\ PlayerSprite.change_x p' = PlayerSprite.change_x p)
    /\ (enemy = false -> hazard = false ->
        GameView.health g' = GameView.health g /\ p' = p).
Proof.
  intros Hp Hout g' enemy hazard.
  assert (Et : Py.ltb 0 (Py.max 0.0 (GameView.invuln_timer g - delta_time))
               = false) by (apply ltb_false; exact Hout).
  pose proof (filter_existsb
                (fun e => check_for_collision (PlayerSprite.sprite p)
                            (EnemySprite.sprite e))
                (GameView.Enemies (GameView.scene g))) as He.
  pose proof (filter_existsb
                (fun h => check_for_collision (PlayerSprite.sprite p)
                            (Hazard.sprite h))
                (GameView.Hazards (GameView.scene g))) as Hh.
  fold enemy in He. fold hazard in Hh.
  subst g'.
  unfold GameView._check_enemy_collisions,
    GameView.check_for_collision_with_list.
  rewrite Hp.
  cbn [GameView.invuln_timer GameView.set_invuln_timer GameView.scene].
  rewrite Et.
  destruct (filter _ (GameView.Enemies (GameView.scene g))) as [|e0 es].
  - unfold GameView._check_hazard_collisions,
      GameView.check_for_collision_with_list.
    cbn [GameView.player GameView.invuln_timer GameView.set_invuln_timer
         GameView.scene].
    rewrite Hp, Et.
    destruct (filter _ (GameView.Hazards (GameView.scene g))) as [|h0 hs].
    + exists p. cbn [GameView.player GameView.health
                     GameView.set_invuln_timer].
      rewrite Hp.
      repeat split; intros; first [reflexivity | congruence].
    + eexists. cbn. split; [reflexivity|].
      repeat split; intros; first [reflexivity | congruence].
  - unfold GameView._check_hazard_collisions.
    cbn [GameView.player GameView.invuln_timer GameView.set_invuln_timer
         GameView.set_player GameView.set_health].
    change (Py.ltb 0 1.0) with true. cbn iota.
    eexists. cbn. split; [reflexivity|].
    repeat split; intros; first [reflexivity | congruence].
Qed.

(** X13.  A key press or release never changes the score, the health, the
    timer, the level or the scene, and never moves the player or changes
    its horizontal velocity.  A press changes the vertical velocity only
    on W, UP or SPACE while the engine permits a jump, and then sets it to
    the jump speed; a release never touches the player. *)
Theorem keys_only_steer (g : GameView.t) (p : PlayerSprite.t)
    (en : GameView.PhysicsEnginePlatformer) (k : GameView.key) :
  GameView.player g = Some p ->
  GameView.physics_engine g = Some en ->
  let pressed := GameView.on_key_press can_jump g k in
  let released := GameView.on_key_release g k in
  let jumps :=
    match k with
    | GameView.W | GameView.UP | GameView.SPACE =>
      can_jump en (PlayerSprite.sprite p)
    | _ => false
    end in
  (GameView.score pressed, GameView.health pressed,
   GameView.invuln_timer pressed, GameView.level_index pressed,
   GameView.scene pressed)
  = (GameView.score g, GameView.health g, GameView.invuln_timer g,
     GameView.level_index g, GameView.scene g)
  /\ GameView.player pressed
     = Some (if jumps
             then PlayerSprite.set_change_y p PLAYER_JUMP_SPEED
             else p)
  /\ (GameView.score released, GameView.health released,
      GameView.invuln_timer released, GameView.level_index released,
      GameView.scene released, GameView.player released)
     = (GameView.score g, GameView.health g, GameView.invuln_timer g,
        GameView.level_index g, GameView.scene g, GameView.player g).
Proof.
  intros Hp He pressed released jumps. subst pressed released jumps.
  unfold GameView.on_key_press, GameView.on_key_release. rewrite Hp, He.
  destruct k; try destruct (can_jump en (PlayerSprite.sprite p));
    cbn; rewrite ?Hp; repeat split; reflexivity.
Qed.

(** X14.  A and LEFT write the same flag: after both are pressed, the
    release of one of them clears it, and with the right flag down the
    next [_handle_input] stops the player although the other key is still
    held. *)
Theorem releasing_one_left_key_stops (g : GameView.t) (p : PlayerSprite.t)
    (en : GameView.PhysicsEnginePlatformer) :
  GameView.player g = Some p ->
  GameView.physics_engine g = Some en ->
  GameView.move_right g = false ->
  let held :=
    GameView.on_key_press can_jump
      (GameView.on_key_press can_jump g GameView.A) GameView.LEFT in
  let g' := GameView.on_key_release held GameView.A in
  GameView.move_left held = true
  /\ GameView.move_left g' = false
  /\ exists p',
       GameView.player (GameView._handle_input g') = Some p'
       /\ PlayerSprite.change_x p' == 0.
Proof.
  destruct g as [gd sc pl eng li s h tc nm ti ml mr].
  cbn [GameView.player GameView.physics_engine GameView.move_right].
  intros -> -> ->. cbn. repeat split. eexists. split; reflexivity.
Qed.

End Damage.


Lemma enemy_knockback_comes_first_witness :
  exists p',
    GameView.player
      (GameView._check_hazard_collisions Sample.touching
         (GameView._check_enemy_collisions Sample.touching
            Sample.last_heart 0) 0)
    = Some p'
    /\ PlayerSprite.change_y p' = PLAYER_JUMP_SPEED / 2.
Proof.
  destruct (enemy_knockback_comes_first Sample.touching Sample.last_heart
              (Sample.the_player Sample.last_heart) 0)
    as (p' & Hp' & _ & _ & He & _); [evaluate | evaluate |].
  exists p'. split; [exact Hp'|]. apply He. evaluate.
Defined.

Lemma keys_only_steer_witness :
  GameView.player
    (GameView.on_key_press Sample.airborne Sample.fresh GameView.SPACE)
  = Some (Sample.the_player Sample.fresh).
Proof.
  destruct (keys_only_steer Sample.airborne Sample.fresh
              (Sample.the_player Sample.fresh)
              (Sample.the_engine Sample.fresh) GameView.SPACE)
    as (_ & H & _); [evaluate | evaluate |].
  rewrite H. reflexivity.
Defined.

Lemma releasing_one_left_key_stops_witness :
  GameView.move_left
    (GameView.on_key_release
       (GameView.on_key_press Sample.airborne
          (GameView.on_key_press Sample.airborne Sample.fresh GameView.A)
          GameView.LEFT)
       GameView.A)
  = false.
Proof.
  destruct (releasing_one_left_key_stops Sample.airborne Sample.fresh
              (Sample.the_player Sample.fresh)
              (Sample.the_engine Sample.fresh))
    as (_ & H & _); [evaluate | evaluate | evaluate |].
  exact H.
Defined.

(** *** Level setup *)

Lemma index_none {A} (xs : list A) (i : Z) :
  Py.index xs i = None
  <-> (i < - Z.of_nat (List.length xs) \/ Z.of_nat (List.length xs) <= i)%Z.
Proof.
  unfold Py.index.
  destruct (0 <=? i)%Z eqn:E0.
  - apply Z.leb_le in E0. rewrite nth_error_None. lia.
  - apply Z.leb_gt in E0.
    destruct (- Z.of_nat (List.length xs) <=? i)%Z eqn:E1.
    + apply Z.leb_le in E1. rewrite nth_error_None. lia.
    + apply Z.leb_gt in E1. split; [lia|reflexivity].
Qed.

Lemma index_negative {A} (xs : list A) (i : Z) :
  (- Z.of_nat (List.length xs) <= i < 0)%Z ->
  Py.index xs i
  = nth_error xs (Z.to_nat (Z.of_nat (List.length xs) + i)).
Proof.
  intros [Hlo Hhi]. unfold Py.index.
  destruct (0 <=? i)%Z eqn:E0; [apply Z.leb_le in E0; lia|].
  destruct (- Z.of_nat (List.length xs) <=? i)%Z eqn:E1;
    [reflexivity|apply Z.leb_gt in E1; lia].
Qed.

Lemma setup_level (g : GameView.t) (i : Z) :
  match Py.index LEVELS i with
  | None => GameView.setup g i = None
  | Some level =>
    exists g',
      GameView.setup g i = Some g'
      /\ GameView.level_name g' = Level.name level
      /\ GameView.level_index g' = i
      /\ GameView.gender g' = GameView.gender g
      /\ GameView.move_left g' = GameView.move_left g
      /\ GameView.move_right g' = GameView.move_right g
      /\ (i <> 0%Z ->
          GameView.score g' = GameView.score g
          /\ GameView.health g' = GameView.health g)
  end.
Proof.
  unfold GameView.setup.
  destruct (Py.index LEVELS i) as [level|]; [|reflexivity].
  eexists. split; [reflexivity|].
  cbn [GameView.level_name GameView.level_index GameView.gender
       GameView.move_left GameView.move_right GameView.score
       GameView.health].
  repeat split; destruct (Z.eqb_spec i 0); congruence.
Qed.

(** X15.  [setup] raises exactly for the indices Python rejects: those
    below minus the number of levels or from the number of levels up.  A
    negative index in range counts from the end of the catalog; since it
    is not 0, the score and the health are kept even when the level loaded
    is the first one. *)
Theorem setup_accepts_python_indices (g : GameView.t) (i : Z) :
  let n := Z.of_nat (List.length LEVELS) in
  (GameView.setup g i = None <-> (i < - n \/ n <= i)%Z)
  /\ ((- n <= i < 0)%Z ->
      exists level g',
        nth_error LEVELS (Z.to_nat (n + i)) = Some level
        /\ GameView.setup g i = Some g'
        /\ GameView.level_name g' = Level.name level
        /\ GameView.level_index g' = i
        /\ GameView.score g' = GameView.score g
        /\ GameView.health g' = GameView.health g).
Proof.
  intro n. pose proof (setup_level g i) as Hs.
  pose proof (index_none LEVELS i) as Hn. fold n in Hn.
  split.
  - destruct (Py.index LEVELS i) as [level|].
    + destruct Hs as (g' & -> & _). split; [discriminate|].
      intro H. apply Hn in H. discriminate H.
    + split; [intros _; apply Hn; reflexivity|intros _; exact Hs].
  - intro Hi. pose proof (index_negative LEVELS i Hi) as He. fold n in He.
    destruct (Py.index LEVELS i) as [level|].
    + destruct Hs as (g' & Es & Hname & Hli & _ & _ & _ & Hkeep).
      destruct Hkeep as [Hsc Hhe]; [lia|].
      exists level, g'. repeat split; auto.
    + destruct (proj1 Hn eq_refl); lia.
Qed.

Lemma setup_accepts_python_indices_witness :
  exists g',
    GameView.setup Sample.carrying (-3) = Some g'
    /\ GameView.level_name g' = "Forest Path"%string
    /\ GameView.score g' = 5%Z.
Proof.
  destruct (setup_accepts_python_indices Sample.carrying (-3)) as [_ H].
  destruct H as (level & g' & Hl & Es & Hn & _ & Hsc & _); [evaluate|].
  exists g'. split; [exact Es|].
  vm_compute in Hl. injection Hl as <-.
  split; [exact Hn|]. rewrite Hsc. reflexivity.
Defined.


Lemma setup_scene (g g' : GameView.t) (i : Z) (level : Level.t) :
  Py.index LEVELS i = Some level ->
  GameView.setup g i = Some g' ->
  GameView.Walls (GameView.scene g')
  = flat_map
      (fun seg : Z * Z * Q =>
         let '(start_x, end_x, y) := seg in
         map (fun x =>
                GameView.place GROUND_TEXTURE TILE_SCALING (inject_Z x, y))
             (Py.range start_x end_x 64))
      (Level.ground_segments level)
    ++ map (GameView.place PLATFORM_TEXTURE TILE_SCALING)
           (Level.platforms level)
  /\ GameView.physics_engine g'
     = Some (GameView.mk_engine (GameView.Walls (GameView.scene g')) GRAVITY)
  /\ GameView.Coins (GameView.scene g')
     = map (GameView.place COIN_TEXTURE COIN_SCALING) (Level.coins level)
  /\ GameView.Goal (GameView.scene g')
     = [GameView.place FLAG_TEXTURE (TILE_SCALING * 1.5)
          (Level.goal_position level)]
  /\ GameView.Enemies (GameView.scene g')
     = map EnemySprite.init (Level.enemies level).
Proof.
  intros Ei. unfold GameView.setup. rewrite Ei.
  intro E. injection E as <-. repeat split.
Qed.



(** X17.  [setup] builds the level from the catalog and the chosen
    character alone: whatever the view held before, the scene, the player,
    the engine, the coin count and the level name come out the same, and
    the timer is zero.  The two move flags and the character are carried
    over from the view. *)
Theorem setup_discards_previous_level (g1 g2 g1' g2' : GameView.t)
    (i : Z) :
  GameView.gender g1 = GameView.gender g2 ->
  GameView.setup g1 i = Some g1' ->
  GameView.setup g2 i = Some g2' ->
  (GameView.scene g1', GameView.player g1', GameView.physics_engine g1',
   GameView.total_coins g1', GameView.level_name g1',
   GameView.level_index g1', GameView.invuln_timer g1')
  = (GameView.scene g2', GameView.player g2', GameView.physics_engine g2',
     GameView.total_coins g2', GameView.level_name g2',
     GameView.level_index g2', GameView.invuln_timer g2')
  /\ (GameView.gender g1', GameView.move_left g1', GameView.move_right g1')
     = (GameView.gender g1, GameView.move_left g1, GameView.move_right g1).
Proof.
  intro Hg. unfold GameView.setup.
  destruct (Py.index LEVELS i) as [level|]; [|discriminate].
  intros E1 E2. injection E1 as <-. injection E2 as <-.
  cbn [GameView.scene GameView.player GameView.physics_engine
       GameView.total_coins GameView.level_name GameView.level_index
       GameView.invuln_timer GameView.gender GameView.move_left
       GameView.move_right].
  rewrite Hg. split; reflexivity.
Qed.

Lemma setup_discards_previous_level_witness :
  let replayed :=
    match GameView.setup Sample.last_heart 1 with
    | Some g => g
    | None => Sample.last_heart
    end in
  (GameView.scene Sample.second_level, GameView.player Sample.second_level,
   GameView.physics_engine Sample.second_level,
   GameView.total_coins Sample.second_level,
   GameView.level_name Sample.second_level,
   GameView.level_index Sample.second_level,
   GameView.invuln_timer Sample.second_level)
  = (GameView.scene replayed, GameView.player replayed,
     GameView.physics_engine replayed, GameView.total_coins replayed,
     GameView.level_name replayed, GameView.level_index replayed,
     GameView.invuln_timer replayed).
Proof.
  intro replayed.
  destruct (setup_discards_previous_level Sample.carrying Sample.last_heart
              Sample.second_level replayed 1) as [H _];
    [evaluate | evaluate | evaluate | exact H].
Defined.

(** *** The session and the catalog *)

Lemma catalog_patrols :
  Forall
    (fun level =>
       Forall
         (fun sp =>
            EnemySprite.spec_patrol_min_x sp
            <= fst (EnemySprite.spec_position sp)
            /\ fst (EnemySprite.spec_position sp)
               <= EnemySprite.spec_patrol_max_x sp)
         (Level.enemies level))
    LEVELS.
Proof.
  repeat constructor; evaluate.
Qed.

Lemma update_on_patrol (e : EnemySprite.t) :
  on_patrol e -> on_patrol (EnemySprite.update e).
Proof.
  intros [Hlo Hhi].
  assert (Hb : EnemySprite.patrol_min_x e <= EnemySprite.patrol_max_x e)
    by lra.
  destruct (update_bounds e) as [Hmin Hmax].
  destruct (update_in_range e Hb) as [H1 H2].
  unfold on_patrol. rewrite Hmin, Hmax. split; assumption.
Qed.

Lemma index_natural {A} (xs : list A) (i : Z) :
  (0 <= i)%Z -> Py.index xs i = nth_error xs (Z.to_nat i).
Proof.
  intro H. unfold Py.index. apply Z.leb_le in H. rewrite H. reflexivity.
Qed.

Lemma setup_on_patrol (g g' : GameView.t) (i : Z) :
  GameView.setup g i = Some g' ->
  Forall on_patrol (GameView.Enemies (GameView.scene g')).
Proof.
  intro Es.
  destruct (Py.index LEVELS i) as [level|] eqn:Ei.
  - destruct (setup_scene g g' i level Ei Es) as (_ & _ & _ & _ & He).
    rewrite He.
    assert (Hin : In level LEVELS).
    { unfold Py.index in Ei.
      destruct (0 <=? i)%Z; [exact (nth_error_In _ _ Ei)|].
      destruct (_ <=? i)%Z; [exact (nth_error_In _ _ Ei)|discriminate]. }
    pose proof (proj1 (Forall_forall _ _) catalog_patrols level Hin) as Hl.
    apply Forall_forall. intros e He'. apply in_map_iff in He'.
    destruct He' as (sp & <- & Hsp).
    exact (proj1 (Forall_forall _ _) Hl sp Hsp).
  - pose proof (setup_level g i) as H. rewrite Ei in H. congruence.
Qed.

Lemma coins_through_next (i : Z) (level : Level.t) :
  (0 <= i)%Z ->
  (i + 1 < Z.of_nat (List.length LEVELS))%Z ->
  nth_error LEVELS (Z.to_nat (i + 1)) = Some level ->
  coins_through (i + 1)
  = (coins_through i + Z.of_nat (List.length (Level.coins level)))%Z.
Proof.
  intros H0 H1. rewrite levels_length in H1.
  assert (Hi : i = 0%Z \/ i = 1%Z) by lia.
  destruct Hi as [->| ->]; intro E; vm_compute in E; injection E as <-;
    reflexivity.
Qed.

Lemma coins_through_first (level : Level.t) :
  nth_error LEVELS 0 = Some level ->
  coins_through 0 = Z.of_nat (List.length (Level.coins level)).
Proof.
  intro E. vm_compute in E. injection E as <-. reflexivity.
Qed.

Lemma coins_through_bound (i : Z) :
  (0 <= i < Z.of_nat (List.length LEVELS))%Z -> (coins_through i <= 20)%Z.
Proof.
  rewrite levels_length. intro H.
  assert (Hi : i = 0%Z \/ i = 1%Z \/ i = 2%Z) by lia.
  destruct Hi as [->|[->| ->]]; vm_compute; discriminate.
Qed.

Lemma setup_coherent (g g' : GameView.t) (i : Z) :
  (0 <= i < Z.of_nat (List.length LEVELS))%Z ->
  GameView.setup g i = Some g' ->
  (exists level,
     nth_error LEVELS (Z.to_nat i) = Some level
     /\ GameView.level_name g' = Level.name level
     /\ GameView.total_coins g' = Z.of_nat (List.length (Level.coins level))
     /\ List.length (GameView.Coins (GameView.scene g'))
        = List.length (Level.coins level))
  /\ GameView.level_index g' = i
  /\ Forall on_patrol (GameView.Enemies (GameView.scene g'))
  /\ GameView.player g' <> None.
Proof.
  intros Hi Es.
  destruct (setup_fields _ _ _ Es)
    as (level & p & en & Ei & Gli & Gname & Gtc & Gco & _ & _ & _ & Gpl & _).
  rewrite index_natural in Ei by lia.
  split; [exists level; auto|]. split; [exact Gli|].
  split; [exact (setup_on_patrol g g' i Es)|]. congruence.
Qed.

Section Session.

Import GameView.

Variable physics_update : PhysicsEnginePlatformer -> Sprite.t -> Sprite.t.
Variable can_jump : PhysicsEnginePlatformer -> Sprite.t -> bool.
Variable check_for_collision : Sprite.t -> Sprite.t -> bool.

Local Abbreviation frame := (on_update physics_update check_for_collision).
Local Abbreviation state :=
  (simulate physics_update check_for_collision).
Local Abbreviation step :=
  (dispatch physics_update can_jump check_for_collision).
Local Abbreviation reached :=
  (reachable physics_update can_jump check_for_collision).
Local Abbreviation runs :=
  (run physics_update can_jump check_for_collision).

(** The enemies of the state at the checks are the former ones after one
    patrol step. *)
Lemma simulate_enemies (engine : PhysicsEnginePlatformer) (g : t)
    (p : PlayerSprite.t) (dt : Q) :
  player g = Some p ->
  Enemies (scene (state engine g dt))
  = map EnemySprite.update (Enemies (scene g)).
Proof.
  intro Hp. unfold simulate.
  destruct (animate_stage physics_update engine g dt)
    as (_ & _ & _ & _ & _ & Aen & _ & Apl).
  destruct (Apl p Hp) as (pin & pa & _ & _ & _ & Hpa & _).
  destruct (coins_stage check_for_collision _ pa Hpa)
    as (_ & Cpl & _ & _ & Cen & _).
  set (a := animate physics_update engine g dt) in *.
  set (c := _check_coin_collisions check_for_collision a) in *.
  assert (Hpc : player c = Some pa) by congruence.
  destruct (enemy_stage check_for_collision c pa dt Hpc)
    as (_ & _ & Escn & _ & _ & _ & pe & Hpe & _).
  set (e := _check_enemy_collisions check_for_collision c dt) in *.
  destruct (hazard_stage check_for_collision e pe dt Hpe)
    as (_ & _ & Hscn & _).
  rewrite Hscn, Escn, Cen, Aen. reflexivity.
Qed.

Lemma check_goal_open (g : t) :
  _check_goal check_for_collision g = true ->
  (total_coins g <= score g)%Z.
Proof.
  unfold _check_goal. destruct (player g); [|discriminate].
  destruct (Goal (scene g)); [discriminate|].
  destruct (check_for_collision _ _); [|discriminate].
  intro H. apply Z.leb_le. exact H.
Qed.

Lemma key_press_scene (g : t) (k : key) :
  scene (on_key_press can_jump g k) = scene g
  /\ total_coins (on_key_press can_jump g k) = total_coins g
  /\ level_name (on_key_press can_jump g k) = level_name g.
Proof.
  unfold on_key_press.
  destruct (player g) as [p|], (physics_engine g) as [en|], k;
    try (destruct (can_jump en (PlayerSprite.sprite p)));
    repeat split; reflexivity.
Qed.

Lemma key_release_scene (g : t) (k : key) :
  scene (on_key_release g k) = scene g
  /\ total_coins (on_key_release g k) = total_coins g
  /\ level_name (on_key_release g k) = level_name g.
Proof.
  unfold on_key_release. destruct k; repeat split; reflexivity.
Qed.

(** The part of [coherent] that only reads the view. *)
Lemma coherent_same (w : window) (g' : t) :
  coherent w ->
  level_index g' = level_index (view w) ->
  level_name g' = level_name (view w) ->
  total_coins g' = total_coins (view w) ->
  score g' = score (view w) ->
  scene g' = scene (view w) ->
  (player (view w) <> None -> player g' <> None) ->
  coherent (Playing g').
Proof.
  unfold coherent. cbn [view].
  intros (Hlv & Hli & Hco & Hsc & Hsum & Hen & Hpl & _) E1 E2 E3 E4 E5 E6.
  rewrite E1, E2, E3, E4, E5. repeat split; auto; lia.
Qed.

Lemma coherent_frame (g g' : t) (o : option GameOverView.t) (dt : Q) :
  sound (Playing g) ->
  coherent (Playing g) ->
  frame g dt = Some (g', o) ->
  coherent (match o with Some v => Over g' v | None => Playing g' end).
Proof.
  intros (_ & Hli & _ & _ & Hp & He) Hc Hu.
  destruct (player g) as [p|] eqn:Ep; [|congruence].
  destruct (physics_engine g) as [en|] eqn:Ee; [|congruence].
  rewrite (on_update_frame physics_update check_for_collision g en p dt
             Ee Ep) in Hu.
  destruct (simulate_summary physics_update check_for_collision en g p dt
              Ep)
    as (pa & ps & _ & Hps & _ & _ & Sst & Ssc & Sco & _).
  destruct (animate_stage physics_update en g dt)
    as (_ & _ & _ & _ & Aco & _).
  unfold coins_under in Ssc. rewrite Aco in Ssc.
  pose proof (simulate_enemies en g p dt Ep) as Sen.
  destruct (statics_fields _ _ Sst) as (_ & Sli & Stc & Snm & _).
  pose proof (filter_split_length
                (check_for_collision (PlayerSprite.sprite pa))
                (Coins (scene g))) as Hlen.
  remember (state en g dt) as s eqn:Hs. clear Hs.
  assert (Hcs : coherent (Playing s)).
  { unfold coherent in Hc |- *. cbn [view] in Hc |- *.
    destruct Hc as (Hlv & _ & Hco & Hsc & Hsum & Hen & _).
    rewrite Sli, Snm, Stc, Sen, Sco, Ssc.
    repeat split; try assumption; try lia; try congruence.
    apply Forall_forall. intros e Hin. apply in_map_iff in Hin.
    destruct Hin as (e0 & <- & Hin0). apply update_on_patrol.
    exact (proj1 (Forall_forall _ _) Hen e0 Hin0). }
  assert (Hover : forall v,
            GameOverView.score v = score s ->
            GameOverView.level_name v = level_name s ->
            (GameOverView.did_win v = true ->
             (level_index s + 1 = Z.of_nat (List.length LEVELS))%Z
             /\ (total_coins s <= score s)%Z /\ (1 <= health s)%Z) ->
            (GameOverView.did_win v = false -> _check_lose s = Some true) ->
            coherent (Over s v)).
  { intros v V1 V2 V3 V4. unfold coherent in Hcs |- *.
    cbn [view] in Hcs |- *.
    destruct Hcs as (Hlv & Hli' & Hco & Hsc & Hsum & Hen & Hpl & _).
    repeat split; intros;
      first [assumption | lia | apply V3; assumption
            | apply V4; assumption]. }
  destruct (resolve_cases check_for_collision s g' o Hu)
    as [(Hlose & -> & ->)|[(Hlose & Hgoal & -> & ->)
        |[(Hlose & Hgoal & Hlt & Hset & ->)
         |(Hlose & Hgoal & Hge & -> & ->)]]].
  - apply Hover; cbn; auto; discriminate.
  - exact Hcs.
  - destruct (advance_fields s g') as (Gsc & _); [lia|exact Hset|].
    destruct (setup_coherent (set_level_index s (level_index s + 1)) g'
                (level_index s + 1))
      as ((level & Hn & Hname & Htc & Hco') & Gli & Hen' & Hpl');
      [lia|exact Hset|].
    unfold coherent in Hcs |- *. cbn [view] in Hcs |- *.
    destruct Hcs as (_ & _ & _ & Hsc & Hsum & _).
    rewrite Gli, Gsc, Hco', Htc.
    rewrite (coins_through_next (level_index s) level) by (lia || exact Hn).
    repeat split; try assumption; try lia.
    exists level. auto.
  - apply check_lose_false in Hlose. apply check_goal_open in Hgoal.
    apply Hover;
      cbn [GameOverView.score GameOverView.level_name
           GameOverView.did_win];
      auto; try discriminate.
    intros _. repeat split; lia.
Qed.

Lemma coherent_step (w w' : window) (e : event) :
  sound w -> coherent w -> step w e = Some w' -> coherent w'.
Proof.
  destruct w as [g|g v]; cbn [dispatch];
    [|intros _ H E; injection E as <-; exact H].
  intros Hs Hc. destruct e as [dt|k|k].
  - destruct (frame g dt) as [[g' o]|] eqn:Hu; [|discriminate].
    pose proof (coherent_frame g g' o dt Hs Hc Hu) as H.
    destruct o; intro E; injection E as <-; exact H.
  - intro E. injection E as <-.
    destruct (key_press_fields can_jump g k) as (_ & E2 & _ & E4 & _ & E6).
    destruct (key_press_scene g k) as (E7 & E8 & E9).
    apply (coherent_same (Playing g)); assumption.
  - intro E. injection E as <-.
    destruct (key_release_fields g k) as (_ & E2 & _ & E4 & _ & E6).
    destruct (key_release_scene g k) as (E7 & E8 & E9).
    apply (coherent_same (Playing g)); try assumption.
    cbn [view]. rewrite E6. auto.
Qed.

Lemma reachable_coherent (w : window) : reached w -> coherent w.
Proof.
  induction 1 as [gender g Hs|w e w' Hr IH Hd].
  - destruct (setup_coherent (init gender) g 0)
      as ((level & Hn & Hname & Htc & Hco) & Gli & Hen & Hpl);
      [rewrite levels_length; lia|exact Hs|].
    destruct (setup_fields _ _ _ Hs)
      as (_ & _ & _ & _ & _ & _ & _ & _ & _ & Gzero & _).
    destruct (Gzero eq_refl) as [Gsc _].
    unfold coherent. cbn [view].
    rewrite Gli, Gsc, Hco, Htc, (coins_through_first level Hn),
      levels_length.
    repeat split; try assumption; try lia.
    exists level. auto.
  - exact (coherent_step w w' e
             (reachable_sound physics_update can_jump check_for_collision
                w Hr) IH Hd).
Qed.


(** X18.  In every reachable state every live enemy is within its patrol
    bounds: the catalog starts each enemy inside ordered bounds, the
    patrol step keeps it there, and a new level brings new enemies from
    the catalog. *)
Theorem enemies_always_on_patrol (w : window) :
  reached w -> Forall on_patrol (Enemies (scene (view w))).
Proof.
  intro Hr. apply reachable_coherent in Hr.
  destruct Hr as (_ & _ & _ & _ & _ & Hen & _). exact Hen.
Qed.

(** X19.  In every reachable state the score is at least zero, the live
    coins are no more than the coin count shown beside the score, and
    score and live coins together are no more than the coins placed in
    the levels played so far; the score is therefore never above 20, the
    number of coins in the whole catalog. *)
Theorem score_within_coins_placed (w : window) :
  reached w ->
  let g := view w in
  let live := Z.of_nat (List.length (Coins (scene g))) in
  (0 <= score g)%Z
  /\ (live <= total_coins g)%Z
  /\ (score g + live <= coins_through (level_index g))%Z
  /\ (score g <= 20)%Z.
Proof.
  intro Hr. apply reachable_coherent in Hr.
  destruct Hr as (_ & Hli & Hco & Hsc & Hsum & _).
  pose proof (coins_through_bound _ Hli).
  cbv zeta. repeat split; lia.
Qed.

(** X20.  In every reachable state the level index is that of a level of
    the catalog, and the level name and the coin count the HUD shows are
    those of that level. *)
Theorem hud_shows_current_level (w : window) :
  reached w ->
  let g := view w in
  (0 <= level_index g < Z.of_nat (List.length LEVELS))%Z
  /\ exists level,
       nth_error LEVELS (Z.to_nat (level_index g)) = Some level
       /\ level_name g = Level.name level
       /\ total_coins g = Z.of_nat (List.length (Level.coins level)).
Proof.
  intro Hr. apply reachable_coherent in Hr.
  destruct Hr as (Hlv & Hli & _). split; assumption.
Qed.

(** X21.  The game-over view repeats the score and the level name of the
    session.  It reports a win only from the last level, with at least
    one heart left and a score between 8, the coins of that level, and
    20; it reports a loss only when no heart is left or the player is
    below the kill plane of its level. *)
Theorem game_over_reports_session (g : t) (v : GameOverView.t) :
  reached (Over g v) ->
  GameOverView.score v = score g
  /\ GameOverView.level_name v = level_name g
  /\ (GameOverView.did_win v = true ->
      level_index g = 2%Z
      /\ GameOverView.level_name v = "Volcano Challenge"%string
      /\ (8 <= GameOverView.score v <= 20)%Z
      /\ (1 <= health g)%Z)
  /\ (GameOverView.did_win v = false ->
      health g = 0%Z
      \/ exists level p,
           nth_error LEVELS (Z.to_nat (level_index g)) = Some level
           /\ player g = Some p
           /\ PlayerSprite.center_y p < kill_plane level).
Proof.
  intro Hr.
  pose proof (reachable_sound physics_update can_jump check_for_collision
                _ Hr) as (Hh & _).
  pose proof (reachable_coherent _ Hr)
    as ((level & Hn & Hname & Htc) & Hli & Hco & Hsc & Hsum & _ & Hpl
        & V1 & V2 & V3 & V4).
  cbn [view] in *.
  pose proof (coins_through_bound _ Hli) as Hb.
  split; [exact V1|]. split; [exact V2|]. split.
  - intro Hw. destruct (V3 Hw) as (Hlast & Hgate & Hhe).
    rewrite levels_length in Hlast.
    assert (E : level_index g = 2%Z) by lia.
    rewrite E in Hn. vm_compute in Hn. injection Hn as <-.
    rewrite V1, V2, Hname.
    change (Z.of_nat (List.length (Level.coins (Level.mk _ _ _ _ _ _ _ _ _))))
      with 8%Z in Htc.
    repeat split; try reflexivity; try lia.
  - intro Hl. specialize (V4 Hl).
    destruct (player g) as [p|] eqn:Ep; [|congruence].
    unfold _check_lose in V4. rewrite Ep in V4.
    destruct (health g <=? 0)%Z eqn:E0; [left; apply Z.leb_le in E0; lia|].
    right. rewrite index_natural in V4 by lia. rewrite Hn in V4.
    exists level, p. split; [exact Hn|]. split; [reflexivity|].
    apply ltb_true. injection V4 as V4. exact V4.
Qed.

Lemma score_step (w w' : window) (e : event) :
  sound w -> step w e = Some w' -> (score (view w) <= score (view w'))%Z.
Proof.
  destruct w as [g|g v]; cbn [dispatch];
    [|intros _ E; injection E as <-; lia].
  intros (_ & Hli & _ & _ & Hp & He). destruct e as [dt|k|k].
  - destruct (frame g dt) as [[g' o]|] eqn:Hu; [|discriminate].
    intro E.
    assert (Hg : view w' = g') by (destruct o; injection E as <-; reflexivity).
    rewrite Hg. cbn [view]. clear E Hg.
    destruct (player g) as [p|] eqn:Ep; [|congruence].
    destruct (physics_engine g) as [en|] eqn:Ee; [|congruence].
    rewrite (on_update_frame physics_update check_for_collision g en p dt
               Ee Ep) in Hu.
    destruct (frame_counters physics_update check_for_collision g en p dt
                Ep) as (Fst & _ & Fsc & _).
    destruct (statics_fields _ _ Fst) as (_ & Fli & _).
    remember (state en g dt) as s eqn:Hs. clear Hs.
    destruct (resolve_cases check_for_collision s g' o Hu)
      as [(_ & -> & _)|[(_ & _ & -> & _)
          |[(_ & _ & _ & Hset & _)|(_ & _ & _ & -> & _)]]]; try exact Fsc.
    destruct (advance_fields s g') as (Gsc & _); [lia|exact Hset|]. lia.
  - intro E. injection E as <-. cbn [view].
    destruct (key_press_fields can_jump g k) as (_ & _ & _ & -> & _). lia.
  - intro E. injection E as <-. cbn [view].
    destruct (key_release_fields g k) as (_ & _ & _ & -> & _). lia.
Qed.

(** X22.  From a reachable state on, whatever the frames and keys, the
    score never goes down: not through damage, not through a new level,
    not at the end of the game. *)
Theorem score_never_decreases (w w' : window) (events : list event) :
  reached w ->
  runs w events = Some w' ->
  (score (view w) <= score (view w'))%Z.
Proof.
  intro Hr. revert w Hr.
  induction events as [|e rest IH]; intros w Hr; cbn [run].
  - intro E. injection E as <-. lia.
  - destruct (step w e) as [w1|] eqn:Ed; [|discriminate].
    intro Hrun.
    pose proof (reachable_sound physics_update can_jump
                  check_for_collision w Hr) as Hs.
    pose proof (score_step w w1 e Hs Ed).
    assert (Hr1 : reached w1) by exact (reachable_step _ _ _ w e w1 Hr Ed).
    pose proof (IH w1 Hr1 Hrun). lia.
Qed.

(** X23.  One event changes the level index by nothing or by one, and by
    one only in a frame whose goal gate was open: the game goes on in the
    next level with a score of at least the coin count of the level left,
    the health kept at one or more, a timer of zero and all coins of the
    new level live. *)
Theorem level_advances_through_goal (w w' : window) (e : event) :
  reached w ->
  step w e = Some w' ->
  level_index (view w') = level_index (view w)
  \/ (level_index (view w') = (level_index (view w) + 1)%Z
      /\ exists dt g',
           e = Update dt
           /\ w' = Playing g'
           /\ (total_coins (view w) <= score g')%Z
           /\ (1 <= health g')%Z
           /\ invuln_timer g' = 0.0
           /\ Z.of_nat (List.length (Coins (scene g'))) = total_coins g').
Proof.
  intros Hr.
  pose proof (reachable_sound physics_update can_jump check_for_collision
                w Hr) as Hs.
  destruct w as [g|g v]; cbn [dispatch view];
    [|intro E; injection E as <-; left; reflexivity].
  destruct Hs as (_ & Hli & _ & _ & Hp & He). destruct e as [dt|k|k].
  - destruct (frame g dt) as [[g' o]|] eqn:Hu; [|discriminate].
    intro E.
    destruct (player g) as [p|] eqn:Ep; [|congruence].
    destruct (physics_engine g) as [en|] eqn:Ee; [|congruence].
    rewrite (on_update_frame physics_update check_for_collision g en p dt
               Ee Ep) in Hu.
    destruct (frame_counters physics_update check_for_collision g en p dt
                Ep) as (Fst & _).
    destruct (statics_fields _ _ Fst) as (_ & Fli & Ftc & _).
    remember (state en g dt) as s eqn:Hs. clear Hs.
    destruct (resolve_cases check_for_collision s g' o Hu)
      as [(_ & -> & ->)|[(_ & _ & -> & ->)
          |[(Hlose & Hgoal & Hlt & Hset & ->)|(_ & _ & _ & -> & ->)]]];
      injection E as <-; cbn [view]; try (left; exact Fli).
    right.
    destruct (advance_fields s g') as (Gsc & Ghe & Gli & Gti & _);
      [lia|exact Hset|].
    destruct (setup_coherent (set_level_index s (level_index s + 1)) g'
                (level_index s + 1))
      as ((level & _ & _ & Htc & Hco) & _); [lia|exact Hset|].
    apply check_lose_false in Hlose. apply check_goal_open in Hgoal.
    split; [lia|]. exists dt, g'.
    repeat split; try assumption; try lia.
  - intro E. injection E as <-. cbn [view]. left.
    destruct (key_press_fields can_jump g k) as (_ & -> & _). reflexivity.
  - intro E. injection E as <-. cbn [view]. left.
    destruct (key_release_fields g k) as (_ & -> & _). reflexivity.
Qed.

Lemma reachable_run (w w' : window) (events : list event) :
  reached w -> runs w events = Some w' -> reached w'.
Proof.
  revert w. induction events as [|e rest IH]; intros w Hr; cbn [run].
  - intro E. injection E as <-. exact Hr.
  - destruct (step w e) as [w1|] eqn:Ed; [|discriminate].
    apply IH. exact (reachable_step _ _ _ w e w1 Hr Ed).
Qed.

(** X24.  Play never raises: from a reachable state every sequence of
    frames and key events runs to the end, no level index ever falls
    outside the catalog. *)
Theorem session_never_raises (w : window) (events : list event) :
  reached w -> exists w', runs w events = Some w'.
Proof.
  intro Hr. revert w Hr.
  induction events as [|e rest IH]; intros w Hr; cbn [run]; [eauto|].
  assert (Hd : exists w1, step w e = Some w1).
  { pose proof (reachable_sound physics_update can_jump
                  check_for_collision w Hr) as Hs.
    destruct w as [g|g v]; cbn [dispatch]; [|eauto].
    destruct e as [dt|k|k]; [|eauto|eauto].
    destruct (on_update_total physics_update check_for_collision g dt Hs)
      as (g' & o & ->).
    destruct o; eauto. }
  destruct Hd as (w1 & Ed). rewrite Ed.
  apply IH. exact (reachable_step _ _ _ w e w1 Hr Ed).
Qed.

End Session.

Ltac fresh_session :=
  apply GameView.reachable_start with (gender := "female"%string);
  evaluate.

Ltac played_out_session :=
  apply (reachable_run Sample.at_rest Sample.airborne Sample.touching
           (GameView.Playing Sample.fresh) _
           [GameView.Update 0; GameView.Update 0; GameView.Update 0]);
  [fresh_session | evaluate].

Lemma enemies_always_on_patrol_witness :
  Forall on_patrol
    (GameView.Enemies (GameView.scene (GameView.view Sample.played_out))).
Proof.
  apply (enemies_always_on_patrol Sample.at_rest Sample.airborne
           Sample.touching Sample.played_out).
  played_out_session.
Defined.

Lemma score_within_coins_placed_witness :
  (GameView.score (GameView.view Sample.played_out) <= 20)%Z.
Proof.
  destruct (score_within_coins_placed Sample.at_rest Sample.airborne
              Sample.touching Sample.played_out) as (_ & _ & _ & H);
    [played_out_session | exact H].
Defined.

Lemma hud_shows_current_level_witness :
  (0 <= GameView.level_index (GameView.view Sample.played_out)
   < Z.of_nat (List.length LEVELS))%Z.
Proof.
  destruct (hud_shows_current_level Sample.at_rest Sample.airborne
              Sample.touching Sample.played_out) as (H & _);
    [played_out_session | exact H].
Defined.

Lemma game_over_reports_session_witness :
  GameOverView.score Sample.final_report
  = GameView.score (GameView.view Sample.played_out).
Proof.
  destruct (game_over_reports_session Sample.at_rest Sample.airborne
              Sample.touching (GameView.view Sample.played_out)
              Sample.final_report) as (H & _); [|exact H].
  replace (GameView.Over (GameView.view Sample.played_out)
             Sample.final_report)
    with Sample.played_out by evaluate.
  played_out_session.
Defined.

Lemma score_never_decreases_witness :
  (GameView.score (GameView.view (GameView.Playing Sample.fresh))
   <= GameView.score (GameView.view Sample.played_out))%Z.
Proof.
  apply (score_never_decreases Sample.at_rest Sample.airborne
           Sample.touching (GameView.Playing Sample.fresh)
           Sample.played_out
           [GameView.Update 0; GameView.Update 0; GameView.Update 0]);
    [fresh_session | evaluate].
Defined.

Lemma level_advances_through_goal_witness :
  GameView.level_index (GameView.view Sample.entered_second)
  = GameView.level_index (GameView.view (GameView.Playing Sample.fresh))
  \/ (GameView.level_index (GameView.view Sample.entered_second)
      = (GameView.level_index
           (GameView.view (GameView.Playing Sample.fresh)) + 1)%Z
      /\ exists dt g',
           GameView.Update 0 = GameView.Update dt
           /\ Sample.entered_second = GameView.Playing g'
           /\ (GameView.total_coins
                 (GameView.view (GameView.Playing Sample.fresh))
               <= GameView.score g')%Z
           /\ (1 <= GameView.health g')%Z
           /\ GameView.invuln_timer g' = 0.0
           /\ Z.of_nat
                (List.length (GameView.Coins (GameView.scene g')))
              = GameView.total_coins g').
Proof.
  apply (level_advances_through_goal Sample.at_rest Sample.airborne
           Sample.touching (GameView.Playing Sample.fresh)
           Sample.entered_second (GameView.Update 0));
    [fresh_session | evaluate].
Defined.

Lemma session_never_raises_witness :
  exists w',
    GameView.run Sample.at_rest Sample.airborne Sample.touching
      (GameView.Playing Sample.fresh)
      [GameView.KeyPress GameView.SPACE; GameView.Update 0.5] = Some w'.
Proof.
  apply (session_never_raises Sample.at_rest Sample.airborne
           Sample.touching (GameView.Playing Sample.fresh)).
  fresh_session.
Defined.

(** *** The menus *)

Section Menus.

Variable can_jump : GameView.PhysicsEnginePlatformer -> Sprite.t -> bool.

Local Abbreviation press := (Window.press can_jump).

(** X25.  From the game-over view ENTER returns to the start menu; ENTER
    or SPACE there opens the character selection with the male character
    preselected; LEFT or A picks the male and RIGHT or D the female
    character, and ENTER or SPACE starts the game.  The game started is a
    new view set up for level 0 with the character picked: score 0, full
    health, timer zero, no move flag set, whatever the session before
    ended with. *)
Theorem restart_is_fresh (v : GameOverView.t)
    (open pick start : GameView.key) :
  In open [GameView.ENTER; GameView.SPACE] ->
  In pick [GameView.LEFT; GameView.A; GameView.RIGHT; GameView.D] ->
  In start [GameView.ENTER; GameView.SPACE] ->
  let gender :=
    match pick with
    | GameView.LEFT | GameView.A => "male"%string
    | _ => "female"%string
    end in
  press (Window.GameOver v) [GameView.ENTER; open]
  = Some (Window.Select (CharacterSelectView.mk 0))
  /\ exists g,
       press (Window.GameOver v) [GameView.ENTER; open; pick; start]
       = Some (Window.Game g)
       /\ press (Window.GameOver v) [GameView.ENTER; open; start]
          = option_map Window.Game
              (GameView.setup (GameView.init "male") 0)
       /\ GameView.setup (GameView.init gender) 0 = Some g
       /\ GameView.gender g = gender
       /\ GameView.level_index g = 0%Z
       /\ GameView.score g = 0%Z
       /\ GameView.health g = PLAYER_MAX_HEALTH
       /\ GameView.invuln_timer g = 0.0
       /\ GameView.move_left g = false
       /\ GameView.move_right g = false.
Proof.
  intros Hopen Hpick Hstart.
  assert (Hmale : press (Window.GameOver v) [GameView.ENTER; open; start]
                  = option_map Window.Game
                      (GameView.setup (GameView.init "male") 0)).
  { destruct Hopen as [<-|[<-|[]]]; destruct Hstart as [<-|[<-|[]]];
      cbn [Window.press Window.on_key_press CharacterSelectView.gender
           CharacterSelectView.selected CharacterSelectView.init Z.eqb];
      destruct (GameView.setup (GameView.init "male") 0); reflexivity. }
  assert (Hfresh : forall gd,
            exists g,
              GameView.setup (GameView.init gd) 0 = Some g
              /\ GameView.gender g = gd
              /\ GameView.level_index g = 0%Z
              /\ GameView.score g = 0%Z
              /\ GameView.health g = PLAYER_MAX_HEALTH
              /\ GameView.invuln_timer g = 0.0
              /\ GameView.move_left g = false
              /\ GameView.move_right g = false).
  { intro gd.
    destruct (setup_total (GameView.init gd) 0) as (g & Es);
      [rewrite levels_length; lia|].
    destruct (setup_fields _ _ _ Es)
      as (_ & _ & _ & _ & Gli & _ & _ & _ & Gti & Gzero & _).
    destruct (Gzero eq_refl) as [Gsc Ghe].
    pose proof (setup_level (GameView.init gd) 0) as Hl.
    destruct (Py.index LEVELS 0) as [level|]; [|congruence].
    destruct Hl as (g0 & Es0 & _ & _ & Hg & Hml & Hmr & _).
    assert (g0 = g) by congruence. subst g0.
    exists g. repeat split; assumption. }
  destruct Hpick as [<-|[<-|[<-|[<-|[]]]]]; cbv beta iota zeta;
    (split; [destruct Hopen as [<-|[<-|[]]]; reflexivity|]);
    [ destruct (Hfresh "male"%string) as (g & Es & Hrest)
    | destruct (Hfresh "male"%string) as (g & Es & Hrest)
    | destruct (Hfresh "female"%string) as (g & Es & Hrest)
    | destruct (Hfresh "female"%string) as (g & Es & Hrest) ];
    exists g;
    (split; [|split; [exact Hmale|split; [exact Es|exact Hrest]]]);
    destruct Hopen as [<-|[<-|[]]]; destruct Hstart as [<-|[<-|[]]];
    cbn [Window.press Window.on_key_press CharacterSelectView.gender
         CharacterSelectView.selected CharacterSelectView.init Z.eqb];
    rewrite Es; reflexivity.
Qed.

End Menus.

Lemma restart_is_fresh_witness :
  Window.press Sample.airborne (Window.GameOver Sample.final_report)
    [GameView.ENTER; GameView.SPACE]
  = Some (Window.Select (CharacterSelectView.mk 0)).
Proof.
  destruct (restart_is_fresh Sample.airborne Sample.final_report
              GameView.SPACE GameView.D GameView.ENTER) as [H _];
    [cbn; auto | cbn; auto | cbn; auto | exact H].
Defined.
